(** * vsl: mount resolution and launch configuration

    A shallow embedding of the Go sources of [gloo-foo/vsl]:
    - [internal/git/discovery.go]   ([FindRoot], [FindRealGitDir]),
    - [internal/mount/parser.go]    ([ParseVolume], [expandPath]),
    - [internal/script/parser.go]   ([ParseFile], [extractList], [extractEnvironment]),
    - [internal/container/run]      ([Config], [Run]),
    - [internal/app/commands/run]   ([flags], [action]).

    Go strings are byte sequences and are modelled by [string]; the Go
    standard library functions the sources call ([strings], [path/filepath]
    on a Unix host) are modelled in the modules [strings] and [filepath];
    the operating system, the UP parser and the Docker engine are the
    fields of a [Host] record, so every function below is an executable
    pure function of the host it runs on.  Functions that call the engine
    return the list of calls they made next to their result.  Logging
    has no effect on any result and is left out. *)

From Stdlib Require Import String Ascii List Bool Arith Lia.
Import ListNotations.
Open Scope list_scope.
Open Scope string_scope.

(** ** Go [strings] *)

Module strings.

(** [strings.HasPrefix]. *)
Fixpoint HasPrefix (s pre : string) {struct pre} : bool :=
  match pre with
  | EmptyString => true
  | String a pre' =>
      match s with
      | EmptyString => false
      | String b s' => Ascii.eqb a b && HasPrefix s' pre'
      end
  end.

(** [s[n:]] for [n <= len(s)]. *)
Fixpoint drop (n : nat) (s : string) : string :=
  match n, s with
  | 0, _ => s
  | S k, String _ r => drop k r
  | S _, EmptyString => EmptyString
  end.

(** [strings.TrimPrefix]. *)
Definition TrimPrefix (s pre : string) : string :=
  if HasPrefix s pre then drop (String.length pre) s else s.

(** [strings.Cut]: the text before and after the first occurrence of
    [sep], or [None] when [sep] does not occur ([strings.Index] is [-1]). *)
Fixpoint Cut (s sep : string) : option (string * string) :=
  if HasPrefix s sep then Some (EmptyString, drop (String.length sep) s)
  else match s with
       | EmptyString => None
       | String c r =>
           match Cut r sep with
           | Some (a, b) => Some (String c a, b)
           | None => None
           end
       end.

(** [strings.Contains]. *)
Definition Contains (s sep : string) : bool :=
  match Cut s sep with Some _ => true | None => false end.

(** The loop of [strings.genSplit] for a non-empty separator and no limit:
    cut at the first occurrence, keep the text before it, go on with the
    text after it; the last piece is what is left. *)
Fixpoint Split_loop (fuel : nat) (s sep : string) : list string :=
  match fuel with
  | 0 => [s]
  | S f =>
      match Cut s sep with
      | None => [s]
      | Some (a, b) => a :: Split_loop f b sep
      end
  end.

(** [strings.Split] (the sources only split on non-empty separators). *)
Definition Split (s sep : string) : list string :=
  Split_loop (String.length s) s sep.

(** [strings.Join]. *)
Fixpoint Join (elems : list string) (sep : string) : string :=
  match elems with
  | [] => EmptyString
  | [a] => a
  | a :: rest => a ++ sep ++ Join rest sep
  end.

(** Reversal of a byte string, used to scan from the end. *)
Fixpoint rev_onto (s acc : string) : string :=
  match s with
  | EmptyString => acc
  | String c r => rev_onto r (String c acc)
  end.

Definition rev (s : string) : string := rev_onto s EmptyString.

(** The six ASCII white space bytes of [strings.asciiSpace]. *)
Definition asciiSpace (c : ascii) : bool :=
  match nat_of_ascii c with
  | 9 | 10 | 11 | 12 | 13 | 32 => true
  | _ => false
  end.

Definition byte_is (n : nat) (c : ascii) : bool := Nat.eqb (nat_of_ascii c) n.

Definition byte_in (lo hi : nat) (c : ascii) : bool :=
  Nat.leb lo (nat_of_ascii c) && Nat.leb (nat_of_ascii c) hi.

(** The UTF-8 encodings of the white space runes of [unicode.IsSpace]
    outside ASCII: U+0085, U+00A0 (two bytes), U+1680, U+2000..U+200A,
    U+2028, U+2029, U+202F, U+205F, U+3000 (three bytes). *)
Definition space2 (b1 b2 : ascii) : bool :=
  byte_is 194 b1 && (byte_is 133 b2 || byte_is 160 b2).

Definition space3 (b1 b2 b3 : ascii) : bool :=
  (byte_is 225 b1 && byte_is 154 b2 && byte_is 128 b3)
  || (byte_is 226 b1 && byte_is 128 b2
      && (byte_in 128 138 b3 || byte_is 168 b3 || byte_is 169 b3 || byte_is 175 b3))
  || (byte_is 226 b1 && byte_is 129 b2 && byte_is 159 b3)
  || (byte_is 227 b1 && byte_is 128 b2 && byte_is 128 b3).

(** [strings.TrimLeftFunc(s, unicode.IsSpace)]: drop leading white space
    runes. *)
Fixpoint TrimLeftSpace (s : string) : string :=
  match s with
  | EmptyString => EmptyString
  | String b1 r1 =>
      if asciiSpace b1 then TrimLeftSpace r1
      else match r1 with
           | EmptyString => s
           | String b2 r2 =>
               if space2 b1 b2 then TrimLeftSpace r2
               else match r2 with
                    | EmptyString => s
                    | String b3 r3 =>
                        if space3 b1 b2 b3 then TrimLeftSpace r3 else s
                    end
           end
  end.

(** The same scan on the reversed string: the bytes of a rune arrive last
    byte first. *)
Fixpoint TrimLeftSpace_rev (s : string) : string :=
  match s with
  | EmptyString => EmptyString
  | String b1 r1 =>
      if asciiSpace b1 then TrimLeftSpace_rev r1
      else match r1 with
           | EmptyString => s
           | String b2 r2 =>
               if space2 b2 b1 then TrimLeftSpace_rev r2
               else match r2 with
                    | EmptyString => s
                    | String b3 r3 =>
                        if space3 b3 b2 b1 then TrimLeftSpace_rev r3 else s
                    end
           end
  end.

(** [strings.TrimRightFunc(s, unicode.IsSpace)]. *)
Definition TrimRightSpace (s : string) : string := rev (TrimLeftSpace_rev (rev s)).

(** [strings.TrimSpace]. *)
Definition TrimSpace (s : string) : string := TrimRightSpace (TrimLeftSpace s).

(** The first occurrence, stated without [Cut]. *)
Definition first_occurrence (s sep pre post : string) : Prop :=
  s = pre ++ sep ++ post /\
  forall u v, s = u ++ sep ++ v -> String.length pre <= String.length u.

(** A string in which the byte [c] does not occur. *)
Fixpoint free_of (c : ascii) (s : string) : bool :=
  match s with
  | EmptyString => true
  | String d r => negb (Ascii.eqb d c) && free_of c r
  end.

End strings.

(** ** Go [path/filepath] on a Unix host

    The separator is [/] and there are no volume names.  [Clean] is
    described by what it does to the elements between separators, which is
    how its documentation states it: empty and [.] elements are dropped, an
    inner [..] removes the element before it, a [..] that would climb above
    the root is dropped, and one that would climb above a relative start is
    kept. *)

Module filepath.

Definition is_sep (c : ascii) : bool := Ascii.eqb c "/"%char.

(** [filepath.IsAbs]. *)
Definition IsAbs (path : string) : bool := strings.HasPrefix path "/".

(** The elements of a path: the text between consecutive separators. *)
Fixpoint elements (path : string) : list string :=
  match path with
  | EmptyString => [EmptyString]
  | String c r =>
      if is_sep c then EmptyString :: elements r
      else match elements r with
           | e :: es => String c e :: es
           | [] => [String c EmptyString]
           end
  end.

(** One turn of the loop of [Clean]; [out] holds the elements written so
    far, last one first. *)
Definition clean_step (rooted : bool) (out : list string) (e : string) : list string :=
  if String.eqb e "" then out
  else if String.eqb e "." then out
  else if String.eqb e ".." then
    match out with
    | top :: below =>
        if String.eqb top ".." then (if rooted then out else e :: out)
        else below
    | [] => if rooted then out else [e]
    end
  else e :: out.

(** [filepath.Clean]. *)
Definition Clean (path : string) : string :=
  if String.eqb path "" then "."
  else
    let rooted := IsAbs path in
    let out := fold_left (clean_step rooted) (elements path) [] in
    let body := strings.Join (List.rev out) "/" in
    if rooted then "/" ++ body
    else if String.eqb body "" then "." else body.

(** [filepath.Join]: the elements from the first non-empty one on, joined
    by the separator and cleaned. *)
Fixpoint Join (elem : list string) : string :=
  match elem with
  | [] => EmptyString
  | e :: rest =>
      if String.eqb e "" then Join rest else Clean (strings.Join elem "/")
  end.

(** [path[:i+1]] where [i] is the index of the last separator, the empty
    string when there is none. *)
Fixpoint dir_prefix (path : string) : string :=
  match path with
  | EmptyString => EmptyString
  | String c r =>
      match dir_prefix r with
      | EmptyString => if is_sep c then String c EmptyString else EmptyString
      | q => String c q
      end
  end.

(** [filepath.Dir]. *)
Definition Dir (path : string) : string := Clean (dir_prefix path).

(** The [n]-th ancestor of a directory: [n] applications of [Dir]. *)
Fixpoint ancestor (n : nat) (dir : string) : string :=
  match n with
  | 0 => dir
  | S k => ancestor k (Dir dir)
  end.



(** The bytes a list of elements takes, each with one separator. *)
Fixpoint sz (l : list string) : nat :=
  match l with
  | [] => 0
  | e :: r => String.length e + 1 + sz r
  end.

(** What decreases along a walk to the parent directory. *)
Definition walk_measure (p : string) : nat :=
  if String.eqb p "." then 0 else String.length p + 1.

End filepath.

Arguments filepath.Clean : simpl never.
Arguments filepath.Join : simpl never.
Arguments filepath.Dir : simpl never.

(** The line separator the sources split file contents on. *)
Definition newline : string := String "010"%char "".

(** ** Errors and outcomes *)

(** Error numbers of failed system calls; [ENOENT] is "does not exist",
    the others are failures to probe. *)
Inductive errno : Set := ENOENT | EACCES | EIO | ENOTDIR | ELOOP.

(** Go [error] values: a failed system call, [errors.New]/[fmt.Errorf]
    without a wrapped error, [fmt.Errorf("msg: %w", err)], and the
    [cli.Exit] error carrying an exit code. *)
Inductive error : Set :=
| SyscallError (e : errno)
| errorString (msg : string)
| wrapError (msg : string) (err : error)
| ExitError (msg : string) (code : nat).

(** A Go [(T, error)] result. *)
Inductive result (A : Type) : Type :=
| Ok (a : A)
| Err (err : error).
Arguments Ok {A} a.
Arguments Err {A} err.

(** The result of a function that may also panic (a deferred [Close]
    whose error is turned into a panic). *)
Inductive outcome (A : Type) : Type :=
| Ret (a : A)
| Fail (err : error)
| Panic (err : error).
Arguments Ret {A} a.
Arguments Fail {A} err.
Arguments Panic {A} err.

Definition is_ok {A} (r : result A) : bool :=
  match r with Ok _ => true | Err _ => false end.

(** ** Domain types ([internal/container/types.go]) *)

Definition Image := string.
Definition Command := string.
Definition Entrypoint := string.
Definition WorkingDir := string.
Definition Environment := string.
Definition Volume := string.
Definition User := string.
Definition NetworkMode := string.
Definition ContainerID := string.
Definition GitRoot := string.
Definition GitDir := string.
Definition ScriptPath := string.
Definition FilePath := string.

(** [log.Config]: the two strings [main.go] fills in. *)
Record LogConfig : Set := { Level : string; Format : string }.

(** [run.Config] ([internal/container/run/config.go]). *)
Record Config : Set := {
  cfg_Image : Image;
  cfg_Command : list Command;
  cfg_Entrypoint : list Entrypoint;
  cfg_WorkingDir : WorkingDir;
  cfg_Environment : list Environment;
  cfg_Volumes : list Volume;
  cfg_User : User;
  cfg_NetworkMode : NetworkMode;
  cfg_Interactive : bool;
  cfg_NoGit : bool;
  cfg_Privileged : bool;
  cfg_ScriptPath : ScriptPath;
  cfg_ScriptArgs : list string;
  cfg_Output : FilePath;
  cfg_Logging : LogConfig
}.

(** Docker's [mount.Mount], the fields the sources set. *)
Inductive MountType : Set := TypeBind.

Record Mount : Set := {
  Type_ : MountType;
  Source : string;
  Target : string;
  ReadOnly : bool
}.

(** Docker's [container.Config] and [container.HostConfig], the fields
    [Run] sets: together they are the launch specification handed to the
    engine. *)
Record ContainerConfig : Set := {
  cc_Image : string;
  cc_Cmd : list string;
  cc_Entrypoint : list string;
  cc_WorkingDir : string;
  cc_Env : list string;
  cc_User : string;
  cc_Tty : bool;
  cc_AttachStdin : bool;
  cc_AttachStdout : bool;
  cc_AttachStderr : bool;
  cc_OpenStdin : bool
}.

Record HostConfig : Set := {
  hc_Mounts : list Mount;
  hc_AutoRemove : bool;
  hc_Privileged : bool;
  hc_NetworkMode : string
}.

(** [run.MountInfo] and [run.Result]. *)
Record MountInfo : Set := { mi_Source : string; mi_Target : string }.

Record Result : Set := {
  res_Success : bool;
  res_ContainerID : ContainerID;
  res_Image : Image;
  res_WorkingDir : WorkingDir;
  res_Mounts : list MountInfo;
  res_GitRoot : GitRoot;
  res_ScriptPath : ScriptPath;
  res_Message : string
}.

(** Values of a parsed UP document ([up.Value]): a scalar is a Go string,
    [up.List] a slice of values, [up.Block] a map from keys to values,
    given here in the order the [range] over the map happens to visit
    it. *)
#[warnings="-register-all"]
Inductive Value : Set :=
| VScalar (s : string)
| VList (items : list Value)
| VBlock (entries : list (string * Value))
| VOther.

Record Node : Set := { Key : string; NodeValue : Value }.

Record Document : Set := { Nodes : list Node }.

(** Assignments to one field of a [Config]. *)

Definition set_Image (c : Config) (v : Image) : Config :=
  {| cfg_Image := v; cfg_Command := cfg_Command c;
     cfg_Entrypoint := cfg_Entrypoint c; cfg_WorkingDir := cfg_WorkingDir c;
     cfg_Environment := cfg_Environment c; cfg_Volumes := cfg_Volumes c;
     cfg_User := cfg_User c; cfg_NetworkMode := cfg_NetworkMode c;
     cfg_Interactive := cfg_Interactive c; cfg_NoGit := cfg_NoGit c;
     cfg_Privileged := cfg_Privileged c; cfg_ScriptPath := cfg_ScriptPath c;
     cfg_ScriptArgs := cfg_ScriptArgs c; cfg_Output := cfg_Output c;
     cfg_Logging := cfg_Logging c |}.

Definition set_Command (c : Config) (v : list Command) : Config :=
  {| cfg_Image := cfg_Image c; cfg_Command := v;
     cfg_Entrypoint := cfg_Entrypoint c; cfg_WorkingDir := cfg_WorkingDir c;
     cfg_Environment := cfg_Environment c; cfg_Volumes := cfg_Volumes c;
     cfg_User := cfg_User c; cfg_NetworkMode := cfg_NetworkMode c;
     cfg_Interactive := cfg_Interactive c; cfg_NoGit := cfg_NoGit c;
     cfg_Privileged := cfg_Privileged c; cfg_ScriptPath := cfg_ScriptPath c;
     cfg_ScriptArgs := cfg_ScriptArgs c; cfg_Output := cfg_Output c;
     cfg_Logging := cfg_Logging c |}.

Definition set_Entrypoint (c : Config) (v : list Entrypoint) : Config :=
  {| cfg_Image := cfg_Image c; cfg_Command := cfg_Command c;
     cfg_Entrypoint := v; cfg_WorkingDir := cfg_WorkingDir c;
     cfg_Environment := cfg_Environment c; cfg_Volumes := cfg_Volumes c;
     cfg_User := cfg_User c; cfg_NetworkMode := cfg_NetworkMode c;
     cfg_Interactive := cfg_Interactive c; cfg_NoGit := cfg_NoGit c;
     cfg_Privileged := cfg_Privileged c; cfg_ScriptPath := cfg_ScriptPath c;
     cfg_ScriptArgs := cfg_ScriptArgs c; cfg_Output := cfg_Output c;
     cfg_Logging := cfg_Logging c |}.

Definition set_WorkingDir (c : Config) (v : WorkingDir) : Config :=
  {| cfg_Image := cfg_Image c; cfg_Command := cfg_Command c;
     cfg_Entrypoint := cfg_Entrypoint c; cfg_WorkingDir := v;
     cfg_Environment := cfg_Environment c; cfg_Volumes := cfg_Volumes c;
     cfg_User := cfg_User c; cfg_NetworkMode := cfg_NetworkMode c;
     cfg_Interactive := cfg_Interactive c; cfg_NoGit := cfg_NoGit c;
     cfg_Privileged := cfg_Privileged c; cfg_ScriptPath := cfg_ScriptPath c;
     cfg_ScriptArgs := cfg_ScriptArgs c; cfg_Output := cfg_Output c;
     cfg_Logging := cfg_Logging c |}.

Definition set_Environment (c : Config) (v : list Environment) : Config :=
  {| cfg_Image := cfg_Image c; cfg_Command := cfg_Command c;
     cfg_Entrypoint := cfg_Entrypoint c; cfg_WorkingDir := cfg_WorkingDir c;
     cfg_Environment := v; cfg_Volumes := cfg_Volumes c;
     cfg_User := cfg_User c; cfg_NetworkMode := cfg_NetworkMode c;
     cfg_Interactive := cfg_Interactive c; cfg_NoGit := cfg_NoGit c;
     cfg_Privileged := cfg_Privileged c; cfg_ScriptPath := cfg_ScriptPath c;
     cfg_ScriptArgs := cfg_ScriptArgs c; cfg_Output := cfg_Output c;
     cfg_Logging := cfg_Logging c |}.

Definition set_Volumes (c : Config) (v : list Volume) : Config :=
  {| cfg_Image := cfg_Image c; cfg_Command := cfg_Command c;
     cfg_Entrypoint := cfg_Entrypoint c; cfg_WorkingDir := cfg_WorkingDir c;
     cfg_Environment := cfg_Environment c; cfg_Volumes := v;
     cfg_User := cfg_User c; cfg_NetworkMode := cfg_NetworkMode c;
     cfg_Interactive := cfg_Interactive c; cfg_NoGit := cfg_NoGit c;
     cfg_Privileged := cfg_Privileged c; cfg_ScriptPath := cfg_ScriptPath c;
     cfg_ScriptArgs := cfg_ScriptArgs c; cfg_Output := cfg_Output c;
     cfg_Logging := cfg_Logging c |}.

Definition set_User (c : Config) (v : User) : Config :=
  {| cfg_Image := cfg_Image c; cfg_Command := cfg_Command c;
     cfg_Entrypoint := cfg_Entrypoint c; cfg_WorkingDir := cfg_WorkingDir c;
     cfg_Environment := cfg_Environment c; cfg_Volumes := cfg_Volumes c;
     cfg_User := v; cfg_NetworkMode := cfg_NetworkMode c;
     cfg_Interactive := cfg_Interactive c; cfg_NoGit := cfg_NoGit c;
     cfg_Privileged := cfg_Privileged c; cfg_ScriptPath := cfg_ScriptPath c;
     cfg_ScriptArgs := cfg_ScriptArgs c; cfg_Output := cfg_Output c;
     cfg_Logging := cfg_Logging c |}.

Definition set_NetworkMode (c : Config) (v : NetworkMode) : Config :=
  {| cfg_Image := cfg_Image c; cfg_Command := cfg_Command c;
     cfg_Entrypoint := cfg_Entrypoint c; cfg_WorkingDir := cfg_WorkingDir c;
     cfg_Environment := cfg_Environment c; cfg_Volumes := cfg_Volumes c;
     cfg_User := cfg_User c; cfg_NetworkMode := v;
     cfg_Interactive := cfg_Interactive c; cfg_NoGit := cfg_NoGit c;
     cfg_Privileged := cfg_Privileged c; cfg_ScriptPath := cfg_ScriptPath c;
     cfg_ScriptArgs := cfg_ScriptArgs c; cfg_Output := cfg_Output c;
     cfg_Logging := cfg_Logging c |}.

Definition set_Interactive (c : Config) (v : bool) : Config :=
  {| cfg_Image := cfg_Image c; cfg_Command := cfg_Command c;
     cfg_Entrypoint := cfg_Entrypoint c; cfg_WorkingDir := cfg_WorkingDir c;
     cfg_Environment := cfg_Environment c; cfg_Volumes := cfg_Volumes c;
     cfg_User := cfg_User c; cfg_NetworkMode := cfg_NetworkMode c;
     cfg_Interactive := v; cfg_NoGit := cfg_NoGit c;
     cfg_Privileged := cfg_Privileged c; cfg_ScriptPath := cfg_ScriptPath c;
     cfg_ScriptArgs := cfg_ScriptArgs c; cfg_Output := cfg_Output c;
     cfg_Logging := cfg_Logging c |}.

Definition set_Privileged (c : Config) (v : bool) : Config :=
  {| cfg_Image := cfg_Image c; cfg_Command := cfg_Command c;
     cfg_Entrypoint := cfg_Entrypoint c; cfg_WorkingDir := cfg_WorkingDir c;
     cfg_Environment := cfg_Environment c; cfg_Volumes := cfg_Volumes c;
     cfg_User := cfg_User c; cfg_NetworkMode := cfg_NetworkMode c;
     cfg_Interactive := cfg_Interactive c; cfg_NoGit := cfg_NoGit c;
     cfg_Privileged := v; cfg_ScriptPath := cfg_ScriptPath c;
     cfg_ScriptArgs := cfg_ScriptArgs c; cfg_Output := cfg_Output c;
     cfg_Logging := cfg_Logging c |}.

Definition set_ScriptPath (c : Config) (v : ScriptPath) : Config :=
  {| cfg_Image := cfg_Image c; cfg_Command := cfg_Command c;
     cfg_Entrypoint := cfg_Entrypoint c; cfg_WorkingDir := cfg_WorkingDir c;
     cfg_Environment := cfg_Environment c; cfg_Volumes := cfg_Volumes c;
     cfg_User := cfg_User c; cfg_NetworkMode := cfg_NetworkMode c;
     cfg_Interactive := cfg_Interactive c; cfg_NoGit := cfg_NoGit c;
     cfg_Privileged := cfg_Privileged c; cfg_ScriptPath := v;
     cfg_ScriptArgs := cfg_ScriptArgs c; cfg_Output := cfg_Output c;
     cfg_Logging := cfg_Logging c |}.

Definition set_ScriptArgs (c : Config) (v : list string) : Config :=
  {| cfg_Image := cfg_Image c; cfg_Command := cfg_Command c;
     cfg_Entrypoint := cfg_Entrypoint c; cfg_WorkingDir := cfg_WorkingDir c;
     cfg_Environment := cfg_Environment c; cfg_Volumes := cfg_Volumes c;
     cfg_User := cfg_User c; cfg_NetworkMode := cfg_NetworkMode c;
     cfg_Interactive := cfg_Interactive c; cfg_NoGit := cfg_NoGit c;
     cfg_Privileged := cfg_Privileged c; cfg_ScriptPath := cfg_ScriptPath c;
     cfg_ScriptArgs := v; cfg_Output := cfg_Output c;
     cfg_Logging := cfg_Logging c |}.

(** ** The host

    What the program reads from its surroundings.  The file system does
    not change during one run, so probing a path twice gives the same
    answer. *)

Record FileInfo : Set := { IsDir : bool }.

Definition File := nat.

Record Host : Type := {
  sys_stat : string -> result FileInfo;
  sys_open : string -> result File;
  io_ReadAll : File -> result string;
  file_Close : File -> option error;
  os_Getwd : result string;
  os_Getenv : string -> string;
  up_ParseDocument : string -> result Document;
  docker_NewClient : option error;
  docker_Close : option error;
  docker_ContainerCreate : ContainerConfig -> HostConfig -> result string;
  docker_ContainerStart : string -> option error;
  docker_ContainerWait : string -> option error;
  app_Output : FilePath -> Result -> option error
}.

Section OnHost.

Variable h : Host.

(** [os.Stat]: the system call fails with [ENOENT] on the empty path. *)
Definition os_Stat (name : string) : result FileInfo :=
  if String.eqb name "" then Err (SyscallError ENOENT) else sys_stat h name.

(** [os.Open]: likewise. *)
Definition os_Open (name : string) : result File :=
  if String.eqb name "" then Err (SyscallError ENOENT) else sys_open h name.

(** [os.UserHomeDir] on Unix: the value of [$HOME] when it is not empty. *)
Definition os_UserHomeDir : result string :=
  let v := os_Getenv h "HOME" in
  if negb (String.eqb v "") then Ok v
  else Err (errorString "$HOME is not defined").

(** [filepath.Abs] on Unix. *)
Definition filepath_Abs (path : string) : result string :=
  if filepath.IsAbs path then Ok (filepath.Clean path)
  else match os_Getwd h with
       | Err err => Err err
       | Ok wd => Ok (filepath.Join [wd; path])
       end.

(** [defer file.Close()] with a panic on its error, around a body that
    does not panic itself. *)
Definition defer_Close {A} (file : File) (body : outcome A) : outcome A :=
  match file_Close h file with
  | Some err => Panic err
  | None => body
  end.

(** ** [internal/git/discovery.go] *)

Definition errNoRepository : error := errorString "no git repository found".

(** The [for] loop of [FindRoot]; [None] when [fuel] turns run out. *)
Fixpoint FindRoot_loop (fuel : nat) (dir : string) : option (result GitRoot) :=
  match fuel with
  | 0 => None
  | S fuel' =>
      let gitPath := filepath.Join [dir; ".git"] in
      match os_Stat gitPath with
      | Ok _ => Some (Ok dir)
      | Err _ =>
          let parent := filepath.Dir dir in
          if String.eqb parent dir then Some (Err errNoRepository)
          else FindRoot_loop fuel' parent
      end
  end.

(** Turns that suffice for a walk from [startDir]: each turn that does not
    return shortens the path ([FindRoot_loop_returns] below). *)
Definition walk_fuel (startDir : string) : nat := S (S (String.length startDir)).

(** [git.FindRoot]. *)
Definition FindRoot (startDir : string) : result GitRoot :=
  match FindRoot_loop (walk_fuel startDir) startDir with
  | Some r => r
  | None => Err errNoRepository
  end.

(** The probe of the marker of the [k]-th ancestor of [dir] succeeds. *)
Definition marker_at (k : nat) (dir : string) : bool :=
  is_ok (os_Stat (filepath.Join [filepath.ancestor k dir; ".git"])).

(** The [range lines] loop of [FindRealGitDir]. *)
Fixpoint scan_gitdir (gitPath : string) (lines : list string) : GitDir :=
  match lines with
  | [] => gitPath
  | line :: rest =>
      if strings.HasPrefix line "gitdir: " then
        let worktreeGitDir := strings.TrimSpace (strings.TrimPrefix line "gitdir:") in
        if strings.Contains worktreeGitDir "/worktrees/" then
          match strings.Split worktreeGitDir "/worktrees/" with
          | part0 :: _ => part0
          | [] => worktreeGitDir
          end
        else worktreeGitDir
      else scan_gitdir gitPath rest
  end.

(** [git.FindRealGitDir]. *)
Definition FindRealGitDir (gitRoot : GitRoot) : outcome GitDir :=
  let gitPath := filepath.Join [gitRoot; ".git"] in
  match os_Stat gitPath with
  | Err err => Fail err
  | Ok info =>
      if IsDir info then Ret gitPath
      else match os_Open gitPath with
           | Err err => Fail err
           | Ok file =>
               defer_Close file
                 match io_ReadAll h file with
                 | Err err => Fail err
                 | Ok content =>
                     Ret (scan_gitdir gitPath (strings.Split content newline))
                 end
           end
  end.

(** ** [internal/mount/parser.go] *)

(** [expandPath]. *)
Definition expandPath (path : string) : string :=
  let relative_to_absolute :=
    if negb (filepath.IsAbs path) then
      match filepath_Abs path with
      | Ok abs => abs
      | Err _ => path
      end
    else path in
  if strings.HasPrefix path "~/" then
    match os_UserHomeDir with
    | Ok home => filepath.Join [home; strings.drop 2 path]
    | Err _ => relative_to_absolute
    end
  else relative_to_absolute.

(** [ParseVolume]; [None] is the [nil] mount. *)
Definition ParseVolume (vol : Volume) : option Mount :=
  let parts := strings.Split vol ":" in
  match parts with
  | source :: target :: _ =>
      let readonly :=
        Nat.eqb (List.length parts) 3 && String.eqb (nth 2 parts "") "ro" in
      let source := expandPath source in
      match os_Stat source with
      | Err _ => None
      | Ok _ =>
          Some {| Type_ := TypeBind; Source := source; Target := target;
                  ReadOnly := readonly |}
      end
  | _ => None
  end.

(** ** [internal/script/parser.go] *)

(** The scalar items of a list, as both [extractList] and the list case
    of [extractEnvironment] collect them. *)
Fixpoint scalars (items : list Value) : list string :=
  match items with
  | [] => []
  | VScalar s :: rest => s :: scalars rest
  | _ :: rest => scalars rest
  end.

(** [extractList]. *)
Definition extractList (value : Value) : list string :=
  match value with
  | VList items => scalars items
  | _ => []
  end.

(** The map case of [extractEnvironment]. *)
Fixpoint block_environment (entries : list (string * Value)) : list string :=
  match entries with
  | [] => []
  | (key, VScalar s) :: rest => (key ++ "=" ++ s) :: block_environment rest
  | _ :: rest => block_environment rest
  end.

(** [extractEnvironment]. *)
Definition extractEnvironment (value : Value) : list string :=
  match value with
  | VList items => scalars items
  | VBlock entries => block_environment entries
  | _ => []
  end.

Definition key_is (node : Node) (k : string) : bool := String.eqb (Key node) k.

(** The [switch node.Key] of [ParseFile], applied to one node. *)
Definition apply_node (config : Config) (node : Node) : Config :=
  if key_is node "image" then
    match NodeValue node with
    | VScalar scalar => set_Image config scalar
    | _ => config
    end
  else if key_is node "command" then
    set_Command config (cfg_Command config ++ extractList (NodeValue node))%list
  else if key_is node "entrypoint" then
    set_Entrypoint config (cfg_Entrypoint config ++ extractList (NodeValue node))%list
  else if key_is node "workdir" || key_is node "working_dir" then
    match NodeValue node with
    | VScalar scalar => set_WorkingDir config scalar
    | _ => config
    end
  else if key_is node "env" || key_is node "environment" then
    set_Environment config
      (cfg_Environment config ++ extractEnvironment (NodeValue node))%list
  else if key_is node "volume" || key_is node "volumes" then
    set_Volumes config (cfg_Volumes config ++ extractList (NodeValue node))%list
  else if key_is node "user" then
    match NodeValue node with
    | VScalar scalar => set_User config scalar
    | _ => config
    end
  else if key_is node "interactive" then
    match NodeValue node with
    | VScalar scalar => set_Interactive config (String.eqb scalar "true")
    | _ => config
    end
  else if key_is node "privileged" then
    match NodeValue node with
    | VScalar scalar => set_Privileged config (String.eqb scalar "true")
    | _ => config
    end
  else if key_is node "network_mode" then
    match NodeValue node with
    | VScalar scalar => set_NetworkMode config scalar
    | _ => config
    end
  else config.

(** The [Config] literal [ParseFile] starts from: empty lists, zero
    values elsewhere. *)
Definition empty_Config : Config :=
  {| cfg_Image := ""; cfg_Command := []; cfg_Entrypoint := [];
     cfg_WorkingDir := ""; cfg_Environment := []; cfg_Volumes := [];
     cfg_User := ""; cfg_NetworkMode := ""; cfg_Interactive := false;
     cfg_NoGit := false; cfg_Privileged := false; cfg_ScriptPath := "";
     cfg_ScriptArgs := []; cfg_Output := "";
     cfg_Logging := {| Level := ""; Format := "" |} |}.

(** The shebang step of [ParseFile]. *)
Definition skip_shebang (content : string) : string :=
  match strings.Split content newline with
  | line0 :: rest =>
      if strings.HasPrefix line0 "#!" then strings.Join rest newline
      else content
  | [] => content
  end.

(** [script.ParseFile]. *)
Definition ParseFile (path : string) : outcome Config :=
  match os_Open path with
  | Err err => Fail err
  | Ok file =>
      defer_Close file
        match io_ReadAll h file with
        | Err err => Fail err
        | Ok content =>
            match up_ParseDocument h (skip_shebang content) with
            | Err err => Fail (wrapError "failed to parse UP document" err)
            | Ok doc =>
                let config := fold_left apply_node (Nodes doc) empty_Config in
                if String.eqb (cfg_Image config) "" then
                  Fail (errorString "script must specify image")
                else Ret config
            end
        end
  end.

(** ** [internal/container/run/run.go] *)

Definition bind_mount (source target : string) : Mount :=
  {| Type_ := TypeBind; Source := source; Target := target; ReadOnly := false |}.

(** The mounts [Run] builds and the repository root it reports: the base
    mount and the repository discovery. *)
Definition Run_mounts (cfg : Config) (pwd : string) : outcome (list Mount * GitRoot) :=
  let mounts := [bind_mount pwd pwd] in
  if negb (cfg_NoGit cfg) then
    match FindRoot pwd with
    | Ok foundGitRoot =>
        if negb (String.eqb foundGitRoot "") && negb (String.eqb foundGitRoot pwd) then
          let mounts := (mounts ++ [bind_mount foundGitRoot foundGitRoot])%list in
          match FindRealGitDir foundGitRoot with
          | Ret realGitDir =>
              if negb (String.eqb realGitDir "") then
                let gitDirPath := filepath.Join [foundGitRoot; ".git"] in
                if negb (String.eqb realGitDir gitDirPath) then
                  Ret ((mounts ++ [bind_mount realGitDir gitDirPath])%list, foundGitRoot)
                else Ret (mounts, foundGitRoot)
              else Ret (mounts, foundGitRoot)
          | Fail _ => Ret (mounts, foundGitRoot)
          | Panic err => Panic err
          end
        else Ret (mounts, "")
    | Err _ => Ret (mounts, "")
    end
  else Ret (mounts, "").

(** The command: the configured one, with the script arguments after it
    when the configuration comes from a script. *)
Definition Run_cmd (cfg : Config) : list string :=
  if negb (String.eqb (cfg_ScriptPath cfg) "") then
    (cfg_Command cfg ++ cfg_ScriptArgs cfg)%list
  else cfg_Command cfg.

Definition Run_workingDir (cfg : Config) (pwd : string) : string :=
  if String.eqb (cfg_WorkingDir cfg) "" then pwd else cfg_WorkingDir cfg.

(** The [container.Config] literal of [Run]. *)
Definition Run_containerConfig (cfg : Config) (pwd : string) : ContainerConfig :=
  {| cc_Image := cfg_Image cfg;
     cc_Cmd := Run_cmd cfg;
     cc_Entrypoint := cfg_Entrypoint cfg;
     cc_WorkingDir := Run_workingDir cfg pwd;
     cc_Env := cfg_Environment cfg;
     cc_User := cfg_User cfg;
     cc_Tty := cfg_Interactive cfg;
     cc_AttachStdin := cfg_Interactive cfg;
     cc_AttachStdout := true;
     cc_AttachStderr := true;
     cc_OpenStdin := cfg_Interactive cfg |}.

(** The [container.HostConfig] literal of [Run]. *)
Definition Run_hostConfig (cfg : Config) (mounts : list Mount) : HostConfig :=
  {| hc_Mounts := mounts;
     hc_AutoRemove := true;
     hc_Privileged := cfg_Privileged cfg;
     hc_NetworkMode := cfg_NetworkMode cfg |}.

(** The calls made to the execution engine, in order. *)
Inductive EngineCall : Set :=
| CallNewClient
| CallContainerCreate (config : ContainerConfig) (hostConfig : HostConfig)
| CallContainerStart (id : string)
| CallContainerWait (id : string)
| CallClose.

(** The launch specifications handed to the engine among its calls. *)
Fixpoint launch_specs (calls : list EngineCall) : list (ContainerConfig * HostConfig) :=
  match calls with
  | [] => []
  | CallContainerCreate config hostConfig :: rest =>
      (config, hostConfig) :: launch_specs rest
  | _ :: rest => launch_specs rest
  end.

Definition mountInfo (m : Mount) : MountInfo :=
  {| mi_Source := Source m; mi_Target := Target m |}.

(** [Run] between the creation of the client and its deferred [Close]:
    the engine calls made and the outcome. *)
Definition Run_body (cfg : Config) : list EngineCall * outcome Result :=
  match os_Getwd h with
  | Err err => ([], Fail (wrapError "failed to get current directory" err))
  | Ok pwd =>
      match Run_mounts cfg pwd with
      | Panic err => ([], Panic err)
      | Fail err => ([], Fail err)
      | Ret (mounts, gitRoot) =>
          let containerConfig := Run_containerConfig cfg pwd in
          let hostConfig := Run_hostConfig cfg mounts in
          let create := CallContainerCreate containerConfig hostConfig in
          match docker_ContainerCreate h containerConfig hostConfig with
          | Err err => ([create], Fail (wrapError "failed to create container" err))
          | Ok id =>
              match docker_ContainerStart h id with
              | Some err =>
                  ([create; CallContainerStart id],
                   Fail (wrapError "failed to start container" err))
              | None =>
                  let calls := [create; CallContainerStart id; CallContainerWait id] in
                  match docker_ContainerWait h id with
                  | Some err =>
                      (calls, Fail (wrapError "error waiting for container" err))
                  | None =>
                      (calls,
                       Ret {| res_Success := true;
                              res_ContainerID := id;
                              res_Image := cfg_Image cfg;
                              res_WorkingDir := Run_workingDir cfg pwd;
                              res_Mounts := map mountInfo mounts;
                              res_GitRoot := gitRoot;
                              res_ScriptPath := cfg_ScriptPath cfg;
                              res_Message := "Container executed successfully" |})
                  end
              end
          end
      end
  end.

(** [run.Run]. *)
Definition Run (cfg : Config) : list EngineCall * outcome Result :=
  match docker_NewClient h with
  | Some err => ([CallNewClient], Fail (wrapError "failed to create docker client" err))
  | None =>
      let (calls, r) := Run_body cfg in
      (CallNewClient :: calls ++ [CallClose],
       match docker_Close h with
       | Some err => Panic err
       | None => r
       end)%list
  end.

(** ** [internal/app] and [internal/app/commands/run] *)

(** [app.Action] with [run.Run] as its runner. *)
Definition app_Action (cfg : Config) : list EngineCall * outcome unit :=
  let (calls, r) := Run cfg in
  (calls,
   match r with
   | Ret result =>
       match app_Output h (cfg_Output cfg) result with
       | Some err => Fail err
       | None => Ret tt
       end
   | Fail err => Fail err
   | Panic err => Panic err
   end).

(** What the command line library resolved for every flag of [flags] (from
    the arguments, the environment variables and the defaults), and the
    positional arguments. *)
Record CommandLine : Set := {
  flag_image : string;
  flag_no_git : bool;
  flag_interactive : bool;
  flag_working_dir : string;
  flag_user : string;
  flag_env : list string;
  flag_volume : list string;
  flag_entrypoint : list string;
  flag_network_mode : string;
  flag_privileged : bool;
  flag_output : string;
  Args : list string
}.

(** The package-level [cfg] when [action] starts: the flags declared with
    a [Destination] have been stored in it; [env], [volume] and
    [entrypoint] are declared without one. *)
Definition flags (cl : CommandLine) : Config :=
  {| cfg_Image := flag_image cl; cfg_Command := []; cfg_Entrypoint := [];
     cfg_WorkingDir := flag_working_dir cl; cfg_Environment := [];
     cfg_Volumes := []; cfg_User := flag_user cl;
     cfg_NetworkMode := flag_network_mode cl;
     cfg_Interactive := flag_interactive cl; cfg_NoGit := flag_no_git cl;
     cfg_Privileged := flag_privileged cl; cfg_ScriptPath := "";
     cfg_ScriptArgs := []; cfg_Output := flag_output cl;
     cfg_Logging := {| Level := ""; Format := "" |} |}.

Definition errImageRequired : error :=
  ExitError "--image flag is required when not running as script interpreter" 1.

(** The normal mode of [action]: the positional arguments become the
    command, and an empty image is refused. *)
Definition action_cli (cl : CommandLine) : list EngineCall * outcome unit :=
  let cfg := flags cl in
  let cfg := set_Command cfg (cfg_Command cfg ++ Args cl)%list in
  if String.eqb (cfg_Image cfg) "" then ([], Fail errImageRequired)
  else app_Action cfg.

(** [action]. *)
Definition action (cl : CommandLine) : list EngineCall * outcome unit :=
  match Args cl with
  | firstArg :: scriptArgs =>
      match os_Stat firstArg with
      | Ok info =>
          if negb (IsDir info) then
            match ParseFile firstArg with
            | Ret scriptCfg =>
                let scriptCfg := set_ScriptPath scriptCfg firstArg in
                let scriptCfg := set_ScriptArgs scriptCfg scriptArgs in
                app_Action scriptCfg
            | Fail _ => action_cli cl
            | Panic err => ([], Panic err)
            end
          else action_cli cl
      | Err _ => action_cli cl
      end
  | [] => action_cli cl
  end.

End OnHost.

(** The shapes of the mount list. *)
Inductive mounts_shape (h : Host) (pwd : string) : list Mount -> Prop :=
| shape_pwd :
    mounts_shape h pwd [bind_mount pwd pwd]
| shape_root root :
    FindRoot h pwd = Ok root -> root <> pwd ->
    mounts_shape h pwd [bind_mount pwd pwd; bind_mount root root]
| shape_gitdir root gitdir :
    FindRoot h pwd = Ok root -> root <> pwd ->
    FindRealGitDir h root = Ret gitdir ->
    gitdir <> filepath.Join [root; ".git"] ->
    mounts_shape h pwd
      [bind_mount pwd pwd; bind_mount root root;
       bind_mount gitdir (filepath.Join [root; ".git"])].

(** ** Example hosts

    A host given by a table of paths: directories, regular files with
    their contents, and paths the system refuses to probe. *)

Inductive entry : Set :=
| Directory
| Regular (content : string)
| Refused (e : errno).

Fixpoint lookup (fs : list (string * entry)) (name : string) : option (nat * entry) :=
  match fs with
  | [] => None
  | (p, e) :: rest =>
      if String.eqb p name then Some (0, e)
      else match lookup rest name with
           | Some (i, e') => Some (S i, e')
           | None => None
           end
  end.

Definition table_stat (fs : list (string * entry)) (name : string) : result FileInfo :=
  match lookup fs name with
  | Some (_, Directory) => Ok {| IsDir := true |}
  | Some (_, Regular _) => Ok {| IsDir := false |}
  | Some (_, Refused e) => Err (SyscallError e)
  | None => Err (SyscallError ENOENT)
  end.

Definition table_open (fs : list (string * entry)) (name : string) : result File :=
  match lookup fs name with
  | Some (_, Refused e) => Err (SyscallError e)
  | Some (i, _) => Ok i
  | None => Err (SyscallError ENOENT)
  end.

Definition table_read (fs : list (string * entry)) (file : File) : result string :=
  match nth_error fs file with
  | Some (_, Regular content) => Ok content
  | _ => Err (SyscallError EIO)
  end.

(** The host with the files [fs], working directory [wd], home directory
    [home] (empty when [$HOME] is not set), a UP parser that answers [doc],
    and an engine that accepts every call. *)
Definition table_host (fs : list (string * entry)) (wd : result string)
    (home : string) (doc : result Document) : Host :=
  {| sys_stat := table_stat fs;
     sys_open := table_open fs;
     io_ReadAll := table_read fs;
     file_Close := fun _ => None;
     os_Getwd := wd;
     os_Getenv := fun key => if String.eqb key "HOME" then home else "";
     up_ParseDocument := fun _ => doc;
     docker_NewClient := None;
     docker_Close := None;
     docker_ContainerCreate := fun _ _ => Ok "c0";
     docker_ContainerStart := fun _ => None;
     docker_ContainerWait := fun _ => None;
     app_Output := fun _ _ => None |}.

Definition no_document : result Document := Err (errorString "not a UP document").

(** A repository at [/home/u/proj] with a [.git] directory. *)
Definition plain_repo : list (string * entry) :=
  [("/home/u/proj/.git", Directory); ("/home/u/proj/src", Directory);
   ("/data", Directory)].

(** A worktree at [/w] whose [.git] file points into the store [/store]. *)
Definition worktree : list (string * entry) :=
  [("/w/.git", Regular ("gitdir: /store/worktrees/feature-x" ++ newline));
   ("/w/sub", Directory); ("/store", Directory)].

(** A checkout at [/w] whose [.git] file names its metadata directory
    directly. *)
Definition linked : list (string * entry) :=
  [("/w/.git", Regular ("gitdir: /store" ++ newline)); ("/store", Directory)].

(** A directory whose marker cannot be probed. *)
Definition refused_marker : list (string * entry) :=
  [("/repo/.git", Refused EACCES)].

(** A script file and the document the UP parser reads from it. *)
Definition script_files : list (string * entry) :=
  [("/s/job.up",
    Regular ("#!/usr/bin/env vsl" ++ newline ++ "image alpine" ++ newline
             ++ "command [echo, hi]" ++ newline ++ "volumes [/data:/mnt:ro]"));
   ("/data", Directory)].

Definition script_document : Document :=
  {| Nodes :=
       [ {| Key := "image"; NodeValue := VScalar "alpine" |};
         {| Key := "command"; NodeValue := VList [VScalar "echo"; VScalar "hi"] |};
         {| Key := "volumes"; NodeValue := VList [VScalar "/data:/mnt:ro"] |} ] |}.

Definition plain_host (wd : string) : Host :=
  table_host plain_repo (Ok wd) "/home/u" no_document.

Definition worktree_host (wd : string) : Host :=
  table_host worktree (Ok wd) "/home/u" no_document.

Definition linked_host (wd : string) : Host :=
  table_host linked (Ok wd) "/home/u" no_document.

Definition refused_host : Host :=
  table_host refused_marker (Ok "/repo") "/home/u" no_document.

Definition bare_host : Host := table_host [] (Ok "/repo") "" no_document.

Definition script_host : Host :=
  table_host script_files (Ok "/s") "/home/u" (Ok script_document).

(** The configuration [ParseFile] reads from [script_document]. *)
Definition script_config : Config :=
  set_Volumes (set_Command (set_Image empty_Config "alpine") ["echo"; "hi"])
    ["/data:/mnt:ro"].

(** Command lines. *)
Definition command_line (image : string) (volumes args : list string) : CommandLine :=
  {| flag_image := image; flag_no_git := false; flag_interactive := true;
     flag_working_dir := ""; flag_user := ""; flag_env := [];
     flag_volume := volumes; flag_entrypoint := []; flag_network_mode := "";
     flag_privileged := false; flag_output := ""; Args := args |}.

(** ** The flag table ([flags], [app.OutputFlags], [app.WithOutputFlags])

    The [cli.Flag] values the sources build, with the fields they set;
    [Destination] names the field of the package-level [cfg] a flag is
    stored in, when it has one. *)

Inductive FlagKind : Set := StringFlag | BoolFlag | StringSliceFlag.

Inductive Destination : Set :=
| DestImage | DestNoGit | DestInteractive | DestWorkingDir | DestUser
| DestNetworkMode | DestPrivileged | DestOutput.

Record Flag : Set := {
  fl_Kind : FlagKind;
  fl_Name : string;
  fl_Aliases : list string;
  fl_Usage : string;
  fl_EnvVars : list string;
  fl_Value : bool;
  fl_Destination : option Destination
}.

(** [app.OutputFlags]. *)
Definition OutputFlags (prefix : string) : list Flag :=
  [ {| fl_Kind := StringFlag; fl_Name := "output"; fl_Aliases := ["o"];
       fl_Usage := "Output file path (default: stdout)";
       fl_EnvVars := [prefix ++ "OUTPUT"]; fl_Value := false;
       fl_Destination := Some DestOutput |} ].

(** [app.WithOutputFlags]. *)
Definition WithOutputFlags (prefix : string) (flags : list Flag) : list Flag :=
  (flags ++ OutputFlags prefix)%list.

(** The flag list built by [flags] of the run command. *)
Definition run_flags (prefix : string) : list Flag :=
  let envPrefix := prefix ++ "RUN_" in
  let baseFlags :=
    [ {| fl_Kind := StringFlag; fl_Name := "image"; fl_Aliases := ["i"];
         fl_Usage := "Docker image to run";
         fl_EnvVars := [envPrefix ++ "IMAGE"]; fl_Value := false;
         fl_Destination := Some DestImage |};
      {| fl_Kind := BoolFlag; fl_Name := "no-git"; fl_Aliases := ["ng"];
         fl_Usage := "Disable git repository discovery and mounting";
         fl_EnvVars := [envPrefix ++ "NO_GIT"]; fl_Value := false;
         fl_Destination := Some DestNoGit |};
      {| fl_Kind := BoolFlag; fl_Name := "interactive"; fl_Aliases := ["it"];
         fl_Usage := "Run container in interactive mode with TTY";
         fl_EnvVars := [envPrefix ++ "INTERACTIVE"]; fl_Value := true;
         fl_Destination := Some DestInteractive |};
      {| fl_Kind := StringFlag; fl_Name := "working-dir"; fl_Aliases := ["w"];
         fl_Usage := "Working directory inside the container";
         fl_EnvVars := [envPrefix ++ "WORKING_DIR"]; fl_Value := false;
         fl_Destination := Some DestWorkingDir |};
      {| fl_Kind := StringFlag; fl_Name := "user"; fl_Aliases := ["u"];
         fl_Usage := "User to run as (uid:gid or username)";
         fl_EnvVars := [envPrefix ++ "USER"]; fl_Value := false;
         fl_Destination := Some DestUser |};
      {| fl_Kind := StringSliceFlag; fl_Name := "env"; fl_Aliases := ["e"];
         fl_Usage := "Set environment variables (KEY=value)";
         fl_EnvVars := [envPrefix ++ "ENV"]; fl_Value := false;
         fl_Destination := None |};
      {| fl_Kind := StringSliceFlag; fl_Name := "volume"; fl_Aliases := ["v"];
         fl_Usage := "Bind mount a volume (source:target[:ro])";
         fl_EnvVars := [envPrefix ++ "VOLUME"]; fl_Value := false;
         fl_Destination := None |};
      {| fl_Kind := StringSliceFlag; fl_Name := "entrypoint"; fl_Aliases := [];
         fl_Usage := "Override the default entrypoint";
         fl_EnvVars := [envPrefix ++ "ENTRYPOINT"]; fl_Value := false;
         fl_Destination := None |};
      {| fl_Kind := StringFlag; fl_Name := "network-mode"; fl_Aliases := [];
         fl_Usage := "Network mode (bridge, host, none, container:name)";
         fl_EnvVars := [envPrefix ++ "NETWORK_MODE"]; fl_Value := false;
         fl_Destination := Some DestNetworkMode |};
      {| fl_Kind := BoolFlag; fl_Name := "privileged"; fl_Aliases := [];
         fl_Usage := "Give extended privileges to this container";
         fl_EnvVars := [envPrefix ++ "PRIVILEGED"]; fl_Value := false;
         fl_Destination := Some DestPrivileged |} ] in
  WithOutputFlags prefix baseFlags.

(** Every word a flag answers to on the command line. *)
Definition flag_words (f : Flag) : list string := fl_Name f :: fl_Aliases f.

(** No string occurs twice in a list. *)
Fixpoint distinct (l : list string) : bool :=
  match l with
  | [] => true
  | a :: rest => negb (existsb (String.eqb a) rest) && distinct rest
  end.

(** The keys the [switch] of [ParseFile] has a case for. *)
Definition known_key (k : string) : bool :=
  existsb (String.eqb k)
    ["image"; "command"; "entrypoint"; "workdir"; "working_dir"; "env";
     "environment"; "volume"; "volumes"; "user"; "interactive"; "privileged";
     "network_mode"].

(** ** Further example hosts *)

Definition carriage_return : string := String "013"%char "".

(** A worktree whose [.git] file has a comment line first, DOS line ends
    and a second [gitdir] line. *)
Definition worktree_crlf : list (string * entry) :=
  [("/w/.git",
    Regular ("# worktree" ++ carriage_return ++ newline
             ++ "gitdir:   /store/worktrees/x" ++ carriage_return ++ newline
             ++ "gitdir: /other" ++ newline));
   ("/store", Directory)].

(** A marker file without a [gitdir] line, and one with an empty one. *)
Definition marker_without_gitdir : list (string * entry) :=
  [("/w/.git", Regular ("worktree /w" ++ newline))].

Definition marker_with_empty_gitdir : list (string * entry) :=
  [("/w/.git", Regular ("gitdir:  " ++ newline))].

(** A host whose files cannot be opened, one whose files cannot be
    closed, and one whose engine client cannot be closed. *)
Definition with_sys_open (h : Host) (r : result File) : Host :=
  {| sys_stat := sys_stat h; sys_open := fun _ => r; io_ReadAll := io_ReadAll h;
     file_Close := file_Close h; os_Getwd := os_Getwd h; os_Getenv := os_Getenv h;
     up_ParseDocument := up_ParseDocument h; docker_NewClient := docker_NewClient h;
     docker_Close := docker_Close h;
     docker_ContainerCreate := docker_ContainerCreate h;
     docker_ContainerStart := docker_ContainerStart h;
     docker_ContainerWait := docker_ContainerWait h; app_Output := app_Output h |}.

Definition with_file_Close (h : Host) (r : option error) : Host :=
  {| sys_stat := sys_stat h; sys_open := sys_open h; io_ReadAll := io_ReadAll h;
     file_Close := fun _ => r; os_Getwd := os_Getwd h; os_Getenv := os_Getenv h;
     up_ParseDocument := up_ParseDocument h; docker_NewClient := docker_NewClient h;
     docker_Close := docker_Close h;
     docker_ContainerCreate := docker_ContainerCreate h;
     docker_ContainerStart := docker_ContainerStart h;
     docker_ContainerWait := docker_ContainerWait h; app_Output := app_Output h |}.

Definition with_docker_Close (h : Host) (r : option error) : Host :=
  {| sys_stat := sys_stat h; sys_open := sys_open h; io_ReadAll := io_ReadAll h;
     file_Close := file_Close h; os_Getwd := os_Getwd h; os_Getenv := os_Getenv h;
     up_ParseDocument := up_ParseDocument h; docker_NewClient := docker_NewClient h;
     docker_Close := r;
     docker_ContainerCreate := docker_ContainerCreate h;
     docker_ContainerStart := docker_ContainerStart h;
     docker_ContainerWait := docker_ContainerWait h; app_Output := app_Output h |}.

(** * Facts about the library models *)

Module strings_facts.
Import strings.

(** The models on the examples of the Go documentation. *)
Example Split_examples :
  Split "a,b,c" "," = ["a"; "b"; "c"] /\
  Split "a man a plan a canal panama" "a " = [""; "man "; "plan "; "canal panama"] /\
  Split "" "Bernardo O'Higgins" = [""] /\
  Split "/store/worktrees/feature-x" "/worktrees/" = ["/store"; "feature-x"].
Proof. repeat split; reflexivity. Qed.

Example TrimSpace_examples :
  TrimSpace (String "032" (String "009" (String "010" (" Hello, Gophers "
             ++ String "010" (String "009" (String "013" (String "010" ""))))))) =
  "Hello, Gophers" /\
  TrimSpace (String "194" (String "160" ("/store" ++ String "226" (String "128" (String "168" ""))))) =
  "/store" /\
  TrimSpace (String "194" "x") = String "194" "x".
Proof. repeat split; reflexivity. Qed.

Example TrimPrefix_examples :
  TrimPrefix "gitdir: /store" "gitdir:" = " /store" /\
  TrimPrefix "worktree" "gitdir:" = "worktree".
Proof. repeat split; reflexivity. Qed.

Lemma HasPrefix_app (p s : string) : HasPrefix (p ++ s) p = true.
Proof.
  induction p as [|c p IH]; simpl.
  - reflexivity.
  - rewrite Ascii.eqb_refl. exact IH.
Qed.

Lemma HasPrefix_split (p s : string) :
  HasPrefix s p = true -> s = p ++ drop (String.length p) s.
Proof.
  revert s. induction p as [|c p IH]; intros s H; simpl.
  - reflexivity.
  - destruct s as [|d s]; simpl in H; [discriminate|].
    apply andb_prop in H as [E H].
    apply Ascii.eqb_eq in E. subst d.
    f_equal. apply IH. exact H.
Qed.

Lemma drop_app (p s : string) : drop (String.length p) (p ++ s) = s.
Proof. induction p; simpl; auto. Qed.

Lemma append_length (a b : string) :
  String.length (a ++ b) = String.length a + String.length b.
Proof. induction a; simpl; auto. Qed.

Lemma append_assoc (a b c : string) : (a ++ b) ++ c = a ++ b ++ c.
Proof. induction a; simpl; congruence. Qed.

Lemma append_nil_r (a : string) : a ++ "" = a.
Proof. induction a; simpl; congruence. Qed.

(** Two prefixes of one string that have the same length are equal. *)
Lemma append_same_length (a b x y : string) :
  a ++ x = b ++ y -> String.length a = String.length b -> a = b /\ x = y.
Proof.
  revert b. induction a as [|c a IH]; intros [|d b] H L; simpl in *;
    try discriminate; auto.
  injection H as -> H. injection L as L.
  destruct (IH _ H L) as [-> ->]. auto.
Qed.

Lemma Cut_unfold (s sep : string) :
  Cut s sep =
  if HasPrefix s sep then Some ("", drop (String.length sep) s)
  else match s with
       | EmptyString => None
       | String c r =>
           match Cut r sep with
           | Some (a, b) => Some (String c a, b)
           | None => None
           end
       end.
Proof. destruct s; reflexivity. Qed.

(** [Cut] splits around an occurrence of the separator. *)
Lemma Cut_sound (s sep a b : string) :
  Cut s sep = Some (a, b) -> s = a ++ sep ++ b.
Proof.
  revert a b. induction s as [|c s IH]; intros a b; rewrite Cut_unfold.
  - destruct (HasPrefix "" sep) eqn:P; [|discriminate].
    intros [= <- <-]. apply HasPrefix_split in P. exact P.
  - destruct (HasPrefix (String c s) sep) eqn:P.
    + intros [= <- <-]. apply HasPrefix_split in P. exact P.
    + destruct (Cut s sep) as [[a' b']|]; [|discriminate].
      intros [= <- <-]. simpl. f_equal. apply IH. reflexivity.
Qed.

(** ... and that occurrence is the first one. *)
Lemma Cut_first (s sep u v : string) :
  s = u ++ sep ++ v ->
  exists a b, Cut s sep = Some (a, b) /\ String.length a <= String.length u.
Proof.
  revert s. induction u as [|c u IH]; intros s ->.
  - simpl. exists "", v. rewrite Cut_unfold, HasPrefix_app, drop_app. auto.
  - rewrite Cut_unfold. cbn [append].
    destruct (HasPrefix (String c (u ++ sep ++ v)) sep) eqn:P.
    + eexists _, _. split; [reflexivity|]. simpl. lia.
    + destruct (IH _ eq_refl) as (a & b & -> & L).
      eexists _, _. split; [reflexivity|]. simpl. lia.
Qed.

Lemma Cut_none (s sep : string) :
  Cut s sep = None -> forall u v, s <> u ++ sep ++ v.
Proof.
  intros H u v E. destruct (Cut_first _ _ _ _ E) as (a & b & C & _). congruence.
Qed.

Lemma Cut_length (s sep a b : string) :
  Cut s sep = Some (a, b) ->
  String.length s = String.length a + String.length sep + String.length b.
Proof.
  intros H. apply Cut_sound in H. subst s. rewrite !append_length. lia.
Qed.

Lemma Cut_first_occurrence (s sep pre post : string) :
  first_occurrence s sep pre post -> Cut s sep = Some (pre, post).
Proof.
  intros [E Min]. destruct (Cut_first _ _ _ _ E) as (a & b & C & L).
  pose proof (Cut_sound _ _ _ _ C) as E'.
  pose proof (Min _ _ E') as L'.
  assert (a = pre /\ sep ++ b = sep ++ post) as [-> E2].
  { apply append_same_length; [congruence | lia]. }
  assert (b = post) as ->.
  { apply (append_same_length sep sep) in E2; tauto. }
  exact C.
Qed.

Lemma Split_loop_fuel (sep : string) :
  sep <> "" ->
  forall f1 f2 s,
    String.length s <= f1 -> String.length s <= f2 ->
    Split_loop f1 s sep = Split_loop f2 s sep.
Proof.
  intros Hsep. induction f1 as [|f1 IH]; intros f2 s L1 L2.
  - destruct s; [|simpl in L1; lia].
    destruct f2; simpl; [reflexivity|].
    destruct sep; [congruence|]. reflexivity.
  - destruct f2 as [|f2].
    + destruct s; [|simpl in L2; lia]. simpl.
      destruct sep; [congruence|]. reflexivity.
    + simpl. destruct (Cut s sep) as [[a b]|] eqn:C; [|reflexivity].
      f_equal. pose proof (Cut_length _ _ _ _ C) as E.
      assert (0 < String.length sep) by (destruct sep; [congruence|simpl; lia]).
      apply IH; lia.
Qed.

(** The equation of [strings.Split]. *)
Lemma Split_eq (s sep : string) :
  sep <> "" ->
  Split s sep =
  match Cut s sep with
  | None => [s]
  | Some (a, b) => a :: Split b sep
  end.
Proof.
  intros Hsep. unfold Split.
  destruct (String.length s) as [|n] eqn:L.
  - destruct s; [|discriminate]. simpl.
    destruct sep; [congruence|]. reflexivity.
  - simpl. destruct (Cut s sep) as [[a b]|] eqn:C; [|reflexivity].
    f_equal. pose proof (Cut_length _ _ _ _ C) as E.
    assert (0 < String.length sep) by (destruct sep; [congruence|simpl; lia]).
    apply Split_loop_fuel; auto; lia.
Qed.

Lemma Cut_char_here (c : ascii) (a b : string) :
  free_of c a = true ->
  Cut (a ++ String c b) (String c "") = Some (a, b).
Proof.
  induction a as [|d a IH]; intros F.
  - rewrite Cut_unfold. cbn. rewrite Ascii.eqb_refl. reflexivity.
  - simpl in F. apply andb_prop in F as [N F].
    rewrite Cut_unfold. cbn [append HasPrefix].
    rewrite Ascii.eqb_sym. apply negb_true_iff in N. rewrite N. cbn [andb].
    rewrite (IH F). reflexivity.
Qed.

Lemma Cut_char_none (c : ascii) (a : string) :
  free_of c a = true -> Cut a (String c "") = None.
Proof.
  induction a as [|d a IH]; intros F.
  - reflexivity.
  - simpl in F. apply andb_prop in F as [N F].
    rewrite Cut_unfold. cbn [HasPrefix].
    rewrite Ascii.eqb_sym. apply negb_true_iff in N. rewrite N. cbn [andb].
    rewrite (IH F). reflexivity.
Qed.

End strings_facts.

Module filepath_facts.
Import strings strings_facts filepath.

(** The models on the test tables of the Go library. *)
Example Clean_examples :
  map Clean
    [""; "abc"; "abc/def"; "."; ".."; "../.."; "../../abc"; "/abc"; "/";
     "abc/"; "./"; "../"; "/abc/"; "abc//def//ghi"; "//abc"; "///abc"; "//abc//";
     "abc/./def"; "/./abc/def"; "abc/."; "abc/def/ghi/../jkl";
     "abc/def/../ghi/../jkl"; "abc/def/.."; "abc/def/../.."; "/abc/def/../..";
     "abc/def/../../.."; "/abc/def/../../..";
     "abc/def/../../../ghi/jkl/../../../mno"; "abc/./../def";
     "abc/../../././../def"] =
    ["."; "abc"; "abc/def"; "."; ".."; "../.."; "../../abc"; "/abc"; "/";
     "abc"; "."; ".."; "/abc"; "abc/def/ghi"; "/abc"; "/abc"; "/abc";
     "abc/def"; "/abc/def"; "abc"; "abc/def/jkl";
     "abc/jkl"; "abc"; "."; "/";
     ".."; "/";
     "../../mno"; "def";
     "../../def"].
Proof. reflexivity. Qed.

Example Dir_examples :
  map Dir [""; "."; "/."; "/"; "/foo"; "x/"; "abc"; "abc/def"; "a/b/.x"; "a/b/c."] =
  ["."; "."; "/"; "/"; "/"; "x"; "."; "abc"; "a/b"; "a/b"].
Proof. reflexivity. Qed.

Example Join_examples :
  map filepath.Join
    [[]; [""]; ["/"]; ["a"]; ["a"; "b"]; ["a"; ""]; [""; "b"]; ["/"; "a"];
     ["/"; "a/b"]; ["/"; ""]; ["/a"; "b"]; ["a"; "/b"]; ["/a"; "/b"];
     ["a/"; "b"]; ["a/"; ""]; [""; ""]] =
    [""; ""; "/"; "a"; "a/b"; "a"; "b"; "/a";
     "/a/b"; "/"; "/a/b"; "a/b"; "/a/b";
     "a/b"; "a"; ""].
Proof. reflexivity. Qed.

Lemma sz_app (l1 l2 : list string) : sz (l1 ++ l2) = sz l1 + sz l2.
Proof. induction l1; simpl; lia. Qed.

Lemma sz_rev (l : list string) : sz (List.rev l) = sz l.
Proof. induction l; simpl; [|rewrite sz_app; simpl]; lia. Qed.

Lemma elements_nonempty (p : string) : elements p <> [].
Proof.
  destruct p as [|c r]; simpl; [discriminate|].
  destruct (is_sep c); [discriminate|].
  destruct (elements r); discriminate.
Qed.

Lemma sz_elements (p : string) : sz (elements p) = String.length p + 1.
Proof.
  induction p as [|c r IH]; simpl; [reflexivity|].
  destruct (is_sep c); simpl; [lia|].
  destruct (elements r) as [|e es] eqn:E.
  - exfalso. exact (elements_nonempty r E).
  - simpl in *. lia.
Qed.

Lemma elements_app_sep (t : string) : elements (t ++ "/") = (elements t ++ [""])%list.
Proof.
  induction t as [|c r IH]; simpl; [reflexivity|].
  destruct (is_sep c); simpl; [congruence|].
  rewrite IH. destruct (elements r) as [|e es] eqn:E.
  - exfalso. exact (elements_nonempty r E).
  - reflexivity.
Qed.

Lemma sz_clean_step (rooted : bool) (out : list string) (e : string) :
  sz (clean_step rooted out e) <= sz out + (String.length e + 1).
Proof.
  unfold clean_step.
  destruct (String.eqb e ""); [lia|].
  destruct (String.eqb e "."); [lia|].
  destruct (String.eqb e "..").
  - destruct out as [|top below]; [destruct rooted; simpl; lia|].
    destruct (String.eqb top ".."); [destruct rooted|]; simpl; lia.
  - simpl. lia.
Qed.

Lemma sz_clean_loop (rooted : bool) (es out : list string) :
  sz (fold_left (clean_step rooted) es out) <= sz out + sz es.
Proof.
  revert out. induction es as [|e es IH]; intros out; simpl; [lia|].
  specialize (IH (clean_step rooted out e)).
  pose proof (sz_clean_step rooted out e). lia.
Qed.

Lemma Join_length (l : list string) :
  l = [] /\ strings.Join l "/" = "" \/
  String.length (strings.Join l "/") + 1 = sz l.
Proof.
  induction l as [|a l IH]; [left; auto|right].
  destruct l as [|b l]; [simpl; lia|].
  destruct IH as [[E _]|IH]; [discriminate|].
  change (strings.Join (a :: b :: l) "/") with (a ++ "/" ++ strings.Join (b :: l) "/").
  rewrite !append_length. change (sz (a :: b :: l)) with (String.length a + 1 + sz (b :: l)).
  change (String.length "/") with 1. lia.
Qed.

Lemma IsAbs_inv (p : string) : IsAbs p = true -> exists u, p = String "/" u.
Proof.
  destruct p as [|c u]; [discriminate|]. unfold IsAbs. cbn [HasPrefix].
  rewrite andb_true_r. intros E. apply Ascii.eqb_eq in E. subst c. eauto.
Qed.

(** [Clean] never lengthens a non-empty path. *)
Lemma Clean_length (p : string) :
  p <> "" -> String.length (Clean p) <= String.length p.
Proof.
  intros Hp. unfold Clean.
  destruct (String.eqb_spec p ""); [contradiction|].
  destruct (IsAbs p) eqn:A.
  - destruct (IsAbs_inv _ A) as [u ->].
    change (elements (String "/" u)) with ("" :: elements u). cbn [fold_left clean_step String.eqb].
    pose proof (sz_clean_loop true (elements u) []) as B.
    rewrite sz_elements in B. simpl in B.
    rewrite <- sz_rev in B.
    destruct (Join_length (List.rev (fold_left (clean_step true) (elements u) [])))
      as [[_ ->]|J]; simpl; lia.
  - pose proof (sz_clean_loop false (elements p) []) as B.
    rewrite sz_elements in B. simpl in B. rewrite <- sz_rev in B.
    assert (0 < String.length p) by (destruct p; [congruence|simpl; lia]).
    destruct (Join_length (List.rev (fold_left (clean_step false) (elements p) [])))
      as [[_ ->]|J]; [simpl; lia|].
    destruct (String.eqb _ ""); [simpl; lia|lia].
Qed.

(** A trailing separator does not change what [Clean] returns. *)
Lemma Clean_app_sep (t : string) : t <> "" -> Clean (t ++ "/") = Clean t.
Proof.
  intros Ht. unfold Clean.
  destruct (String.eqb_spec t ""); [contradiction|].
  destruct (String.eqb_spec (t ++ "/") "") as [E|_].
  - destruct t; discriminate.
  - assert (IsAbs (t ++ "/") = IsAbs t) as -> by (destruct t; [congruence|reflexivity]).
    rewrite elements_app_sep, fold_left_app. reflexivity.
Qed.

Lemma dir_prefix_shape (p : string) :
  dir_prefix p = "" \/
  exists t, dir_prefix p = t ++ "/" /\ String.length t < String.length p.
Proof.
  induction p as [|c r IH]; simpl; [auto|].
  destruct IH as [->|(t & -> & L)].
  - unfold is_sep. destruct (Ascii.eqb_spec c "/") as [->|]; [|auto].
    right. exists "". simpl. split; [reflexivity|lia].
  - right. exists (String c t).
    destruct (t ++ "/") eqn:E; [destruct t; discriminate|].
    simpl. rewrite E. split; [reflexivity|lia].
Qed.

Lemma walk_measure_le (p : string) : walk_measure p <= String.length p + 1.
Proof. unfold walk_measure. destruct (String.eqb p "."); lia. Qed.

(** [Dir] returns its argument or a path of smaller measure. *)
Lemma Dir_decreases (p : string) :
  Dir p = p \/ walk_measure (Dir p) < walk_measure p.
Proof.
  unfold Dir. destruct (String.eqb_spec p ".") as [->|Hdot]; [left; reflexivity|].
  destruct (String.eqb_spec p "/") as [->|Hroot]; [left; reflexivity|].
  right. unfold walk_measure at 2.
  destruct (String.eqb_spec p "."); [contradiction|].
  destruct (dir_prefix_shape p) as [->|(t & E & L)].
  - change (walk_measure (Clean "")) with 0. lia.
  - rewrite E. destruct t as [|c t].
    + change (walk_measure (Clean ("" ++ "/"))) with 2.
      destruct p as [|d [|d' r]]; simpl in *; try lia.
      unfold is_sep in E. destruct (Ascii.eqb_spec d "/") as [->|]; congruence.
    + rewrite Clean_app_sep by discriminate.
      pose proof (Clean_length (String c t)) as B.
      pose proof (walk_measure_le (Clean (String c t))).
      assert (String c t <> "") by discriminate. specialize (B H0). lia.
Qed.

(** ** Descendants of an absolute directory *)


















End filepath_facts.

(** * Repository discovery *)

Section Discovery.
Import filepath filepath_facts.

Variable h : Host.

(** The loop returns within the turns [walk_fuel] allows. *)
Lemma FindRoot_loop_returns (fuel : nat) (dir : string) :
  walk_measure dir < fuel -> exists r, FindRoot_loop h fuel dir = Some r.
Proof.
  revert dir. induction fuel as [|fuel IH]; intros dir L; [lia|].
  simpl. destruct (os_Stat h _); [eauto|].
  destruct (String.eqb_spec (Dir dir) dir) as [E|N]; [eauto|].
  apply IH. destruct (Dir_decreases dir); [contradiction|lia].
Qed.

Lemma FindRoot_loop_more (fuel : nat) (dir : string) (r : result GitRoot) :
  FindRoot_loop h fuel dir = Some r ->
  forall fuel', fuel <= fuel' -> FindRoot_loop h fuel' dir = Some r.
Proof.
  revert dir. induction fuel as [|fuel IH]; intros dir H fuel' L; [discriminate|].
  destruct fuel' as [|fuel']; [lia|]. simpl in *.
  destruct (os_Stat h _); auto.
  destruct (String.eqb _ dir); auto.
  apply IH; auto. lia.
Qed.

Lemma FindRoot_loop_FindRoot (startDir : string) :
  FindRoot_loop h (walk_fuel startDir) startDir = Some (FindRoot h startDir).
Proof.
  unfold FindRoot.
  destruct (FindRoot_loop_returns (walk_fuel startDir) startDir) as [r E].
  - pose proof (walk_measure_le startDir). unfold walk_fuel. lia.
  - rewrite E. reflexivity.
Qed.

Lemma FindRoot_loop_S (fuel : nat) (dir : string) :
  FindRoot_loop h (S fuel) dir =
  match os_Stat h (filepath.Join [dir; ".git"]) with
  | Ok _ => Some (Ok dir)
  | Err _ =>
      if String.eqb (Dir dir) dir then Some (Err errNoRepository)
      else FindRoot_loop h fuel (Dir dir)
  end.
Proof. reflexivity. Qed.

(** The equation of the loop: [FindRoot] is the function that probes
    [dir/.git], returns [dir] when the probe succeeds, gives up when [dir]
    is its own parent, and otherwise goes on from the parent. *)
Lemma FindRoot_eq (dir : string) :
  FindRoot h dir =
  match os_Stat h (filepath.Join [dir; ".git"]) with
  | Ok _ => Ok dir
  | Err _ =>
      if String.eqb (Dir dir) dir then Err errNoRepository
      else FindRoot h (Dir dir)
  end.
Proof.
  pose proof (FindRoot_loop_FindRoot dir) as E.
  unfold walk_fuel in E. rewrite FindRoot_loop_S in E.
  destruct (os_Stat h _); [congruence|].
  destruct (String.eqb_spec (Dir dir) dir) as [|N]; [congruence|].
  pose proof (FindRoot_loop_FindRoot (Dir dir)) as E'.
  apply FindRoot_loop_more with (fuel' := walk_fuel (Dir dir) + S (String.length dir)) in E;
    [|lia].
  apply FindRoot_loop_more with (fuel' := walk_fuel (Dir dir) + S (String.length dir)) in E';
    [|lia].
  congruence.
Qed.

Lemma ancestor_S (n : nat) (dir : string) :
  ancestor (S n) dir = Dir (ancestor n dir).
Proof. revert dir. induction n as [|n IH]; intros dir; [reflexivity|]. simpl in *. apply IH. Qed.

Lemma ancestor_fixed (n : nat) (dir : string) : Dir dir = dir -> ancestor n dir = dir.
Proof. intros E. induction n as [|n IH]; [reflexivity|]. simpl. rewrite E. exact IH. Qed.


Lemma FindRoot_no_marker (dir : string) :
  (forall k, marker_at h k dir = false) -> FindRoot h dir = Err errNoRepository.
Proof.
  unfold marker_at. intros No.
  assert (G : forall fuel d r,
             (forall k, is_ok (os_Stat h (filepath.Join [ancestor k d; ".git"])) = false) ->
             FindRoot_loop h fuel d = Some r -> r = Err errNoRepository).
  { induction fuel as [|fuel IH]; intros d r Nd E; [discriminate|].
    simpl in E. pose proof (Nd 0) as N0. simpl in N0.
    destruct (os_Stat h _); [discriminate|].
    destruct (String.eqb _ d); [congruence|].
    apply (IH _ _ (fun k => Nd (S k)) E). }
  exact (G _ _ _ No (FindRoot_loop_FindRoot dir)).
Qed.

(** Whatever [FindRoot] finds is an ancestor of the start directory with a
    marker that can be probed. *)
Lemma FindRoot_Ok_inv (dir : string) (root : GitRoot) :
  FindRoot h dir = Ok root ->
  exists n, root = ancestor n dir /\ marker_at h n dir = true.
Proof.
  intros E. pose proof (FindRoot_loop_FindRoot dir) as L. rewrite E in L.
  clear E. revert L. generalize (walk_fuel dir). intros fuel. revert dir.
  induction fuel as [|fuel IH]; intros dir L; [discriminate|].
  simpl in L. destruct (os_Stat h (filepath.Join [dir; ".git"])) eqn:S0.
  - injection L as <-. exists 0. split; [reflexivity|].
    unfold marker_at. simpl. rewrite S0. reflexivity.
  - destruct (String.eqb _ dir); [discriminate|].
    destruct (IH _ L) as (n & -> & M). exists (S n). auto.
Qed.

(** The only error [FindRoot] returns. *)
Lemma FindRoot_Err_inv (dir : string) (err : error) :
  FindRoot h dir = Err err -> err = errNoRepository.
Proof.
  intros E. pose proof (FindRoot_loop_FindRoot dir) as L. rewrite E in L.
  clear E. revert L. generalize (walk_fuel dir). intros fuel. revert dir.
  induction fuel as [|fuel IH]; intros dir L; [discriminate|].
  simpl in L. destruct (os_Stat h _); [discriminate|].
  destruct (String.eqb _ dir); [congruence|]. eauto.
Qed.

End Discovery.

(** * The claims on repository discovery *)

Section DiscoveryClaims.
Import filepath.




(** C3, as stated, fails: a marker whose probe is refused with [EACCES]
    makes [FindRoot] report the same "no git repository found" outcome as
    an absent marker. *)
Lemma FindRoot_probe_error_reported_as_no_repository :
  ~ (forall (h : Host) (D : string) (e : errno),
        os_Stat h (filepath.Join [D; ".git"]) = Err (SyscallError e) ->
        e <> ENOENT ->
        FindRoot h D <> Err errNoRepository).
Proof.
  intros Claim.
  apply (Claim refused_host "/repo" EACCES); [reflexivity|discriminate|reflexivity].
Qed.

Lemma FindRoot_loop_same_probes (h1 h2 : Host) :
  (forall p, is_ok (os_Stat h1 p) = is_ok (os_Stat h2 p)) ->
  forall fuel D, FindRoot_loop h1 fuel D = FindRoot_loop h2 fuel D.
Proof.
  intros Same. induction fuel as [|fuel IH]; intros D; [reflexivity|].
  simpl. specialize (Same (filepath.Join [D; ".git"])).
  destruct (os_Stat h1 _), (os_Stat h2 _); simpl in Same; try discriminate.
  - reflexivity.
  - destruct (String.eqb _ D); [reflexivity|apply IH].
Qed.

(** C3, amended.  [FindRoot] looks only at whether a probe succeeds: two
    hosts whose probes succeed on the same paths give the same result,
    whatever the errors of the failing probes are, and the only failure
    [FindRoot] reports is "no git repository found". *)
Theorem FindRoot_probe_errors_count_as_absence (h1 h2 : Host) (D : string) :
  (forall p, is_ok (os_Stat h1 p) = is_ok (os_Stat h2 p)) ->
  FindRoot h1 D = FindRoot h2 D /\
  (forall err, FindRoot h1 D = Err err -> err = errNoRepository).
Proof.
  intros Same. split.
  - unfold FindRoot. rewrite (FindRoot_loop_same_probes h1 h2 Same). reflexivity.
  - intros err. apply FindRoot_Err_inv.
Qed.

Lemma FindRoot_probe_errors_count_as_absence_witness :
  FindRoot refused_host "/repo" = FindRoot bare_host "/repo" /\
  (forall err, FindRoot refused_host "/repo" = Err err -> err = errNoRepository).
Proof.
  apply FindRoot_probe_errors_count_as_absence.
  intros p. unfold os_Stat. destruct (String.eqb p ""); [reflexivity|].
  change (sys_stat refused_host p) with (table_stat refused_marker p).
  change (sys_stat bare_host p) with (table_stat [] p).
  unfold table_stat, refused_marker, lookup.
  destruct (String.eqb "/repo/.git" p); reflexivity.
Defined.

End DiscoveryClaims.

(** * The claims on the metadata directory and on volume expressions *)

Section ResolutionClaims.
Import strings strings_facts.

Lemma first_occurrence_Cut (s sep pre post : string) :
  Cut s sep = Some (pre, post) -> first_occurrence s sep pre post.
Proof.
  intros C. split; [exact (Cut_sound _ _ _ _ C)|].
  intros u v E. destruct (Cut_first _ _ _ _ E) as (a & b & C' & L).
  congruence.
Qed.

Lemma scan_gitdir_skip (gitPath : string) (before rest : list string) :
  forallb (fun l => negb (HasPrefix l "gitdir: ")) before = true ->
  scan_gitdir gitPath (before ++ rest) = scan_gitdir gitPath rest.
Proof.
  induction before as [|l before IH]; intros F; [reflexivity|].
  cbn [forallb] in F. apply andb_prop in F as [N F]. apply negb_true_iff in N.
  change ((l :: before) ++ rest)%list with (l :: (before ++ rest))%list.
  cbn [scan_gitdir]. rewrite N. exact (IH F).
Qed.

Lemma scan_gitdir_line (gitPath path : string) (rest : list string) :
  TrimSpace path = path ->
  scan_gitdir gitPath (("gitdir: " ++ path) :: rest) =
  match Cut path "/worktrees/" with
  | Some (pre, _) => pre
  | None => path
  end.
Proof.
  intros T. cbn [scan_gitdir].
  change (HasPrefix ("gitdir: " ++ path) "gitdir: ") with true. cbv iota.
  change (TrimSpace (TrimPrefix ("gitdir: " ++ path) "gitdir:")) with (TrimSpace path).
  rewrite T. unfold Contains.
  rewrite Split_eq by discriminate.
  destruct (Cut path "/worktrees/") as [[pre post]|]; reflexivity.
Qed.

(** C6. The marker is a regular file whose first [gitdir: ] line carries
    the path [path] (a path: no white space around it).  When [path]
    contains [/worktrees/], the metadata directory is the text before its
    first occurrence; when it does not, the metadata directory is
    [path]. *)
Theorem FindRealGitDir_resolves_gitdir_line (h : Host) (gitRoot : GitRoot)
    (info : FileInfo) (file : File) (content path : string)
    (before rest : list string) :
  os_Stat h (filepath.Join [gitRoot; ".git"]) = Ok info ->
  IsDir info = false ->
  os_Open h (filepath.Join [gitRoot; ".git"]) = Ok file ->
  io_ReadAll h file = Ok content ->
  file_Close h file = None ->
  Split content newline = (before ++ ("gitdir: " ++ path)%string :: rest)%list ->
  forallb (fun l => negb (HasPrefix l "gitdir: ")) before = true ->
  TrimSpace path = path ->
  (forall pre post,
      first_occurrence path "/worktrees/" pre post ->
      FindRealGitDir h gitRoot = Ret pre) /\
  ((forall u v, path <> u ++ "/worktrees/" ++ v) ->
   FindRealGitDir h gitRoot = Ret path).
Proof.
  intros St NotDir Op Rd Cl Lines Before Trimmed.
  assert (E : FindRealGitDir h gitRoot =
              Ret match Cut path "/worktrees/" with
                  | Some (pre, _) => pre
                  | None => path
                  end).
  { unfold FindRealGitDir, defer_Close.
    rewrite St, NotDir, Op, Cl, Rd, Lines, scan_gitdir_skip by exact Before.
    rewrite scan_gitdir_line by exact Trimmed. reflexivity. }
  split.
  - intros pre post F. rewrite E, (Cut_first_occurrence _ _ _ _ F). reflexivity.
  - intros No. rewrite E.
    destruct (Cut path "/worktrees/") as [[pre post]|] eqn:C; [|reflexivity].
    exfalso. exact (No _ _ (Cut_sound _ _ _ _ C)).
Qed.

Lemma FindRealGitDir_resolves_gitdir_line_witness :
  FindRealGitDir (worktree_host "/w") "/w" = Ret "/store" /\
  FindRealGitDir (linked_host "/w") "/w" = Ret "/store".
Proof.
  split.
  - apply (proj1 (FindRealGitDir_resolves_gitdir_line (worktree_host "/w") "/w"
                    {| IsDir := false |} 0
                    ("gitdir: /store/worktrees/feature-x" ++ newline)
                    "/store/worktrees/feature-x" [] [""]
                    eq_refl eq_refl eq_refl eq_refl eq_refl eq_refl eq_refl eq_refl)
                 "/store" "feature-x").
    apply first_occurrence_Cut. reflexivity.
  - apply (proj2 (FindRealGitDir_resolves_gitdir_line (linked_host "/w") "/w"
                    {| IsDir := false |} 0 ("gitdir: /store" ++ newline) "/store" [] [""]
                    eq_refl eq_refl eq_refl eq_refl eq_refl eq_refl eq_refl eq_refl)).
    apply Cut_none. reflexivity.
Defined.

Lemma expandPath_absolute (h : Host) (src : string) :
  filepath.IsAbs src = true -> expandPath h src = src.
Proof.
  intros A. destruct (filepath_facts.IsAbs_inv _ A) as [u ->].
  unfold expandPath. rewrite A. reflexivity.
Qed.

Lemma Split_volume_ro (src tgt : string) :
  free_of ":" src = true -> free_of ":" tgt = true ->
  Split (src ++ ":" ++ tgt ++ ":ro") ":" = [src; tgt; "ro"].
Proof.
  intros Fs Ft.
  rewrite Split_eq by discriminate.
  change (src ++ ":" ++ tgt ++ ":ro") with (src ++ String ":" (tgt ++ String ":" "ro")).
  rewrite (Cut_char_here ":" src _ Fs).
  rewrite Split_eq by discriminate.
  rewrite (Cut_char_here ":" tgt _ Ft).
  reflexivity.
Qed.

(** C9. [ParseVolume] returns no mount for an expression whose source,
    once expanded, cannot be probed on disk; and for [src:tgt:ro] with an
    absolute source that exists it returns the bind mount of [src] on
    [tgt] with [ReadOnly] set. *)
Theorem ParseVolume_missing_source_and_read_only (h : Host) :
  (forall vol,
      is_ok (os_Stat h (expandPath h (hd "" (Split vol ":")))) = false ->
      ParseVolume h vol = None) /\
  (forall src tgt info,
      filepath.IsAbs src = true ->
      free_of ":" src = true -> free_of ":" tgt = true ->
      os_Stat h src = Ok info ->
      ParseVolume h (src ++ ":" ++ tgt ++ ":ro") =
      Some {| Type_ := TypeBind; Source := src; Target := tgt; ReadOnly := true |}).
Proof.
  split.
  - intros vol Missing. unfold ParseVolume.
    destruct (Split vol ":") as [|source [|target rest]]; try reflexivity.
    simpl hd in Missing.
    destruct (os_Stat h (expandPath h source)); [discriminate|reflexivity].
  - intros src tgt info A Fs Ft St. unfold ParseVolume.
    rewrite (Split_volume_ro src tgt Fs Ft), (expandPath_absolute h src A), St.
    reflexivity.
Qed.

Lemma ParseVolume_missing_source_and_read_only_witness :
  ParseVolume (plain_host "/home/u/proj") "relsrc:tgt" = None /\
  ParseVolume (plain_host "/home/u/proj") "/data:/mnt:ro" =
  Some {| Type_ := TypeBind; Source := "/data"; Target := "/mnt"; ReadOnly := true |}.
Proof.
  split.
  - apply (proj1 (ParseVolume_missing_source_and_read_only (plain_host "/home/u/proj"))).
    reflexivity.
  - apply (proj2 (ParseVolume_missing_source_and_read_only (plain_host "/home/u/proj"))
             "/data" "/mnt" {| IsDir := true |}); reflexivity.
Defined.

(** C2, as stated, fails: without a home directory [~/x] is not left as
    it is, it is resolved against the working directory like any relative
    path. *)
Lemma expandPath_without_home_not_unchanged :
  ~ (forall (h : Host) (x : string),
        is_ok (os_UserHomeDir h) = false ->
        expandPath h ("~/" ++ x) = "~/" ++ x).
Proof.
  intros Claim. specialize (Claim bare_host "x" eq_refl).
  vm_compute in Claim. discriminate.
Qed.

(** C2, amended.  [~/x] expands to the cleaned [<home>/x] when [$HOME] is
    set; when it is not, the path is treated as the relative path it is:
    joined to the working directory, and left unchanged only when the
    working directory cannot be determined either. *)
Theorem expandPath_tilde (h : Host) (x : string) :
  match os_UserHomeDir h with
  | Ok home => expandPath h ("~/" ++ x) = filepath.Clean (home ++ "/" ++ x)
  | Err _ =>
      expandPath h ("~/" ++ x) =
      match os_Getwd h with
      | Ok wd => filepath.Join [wd; "~/" ++ x]
      | Err _ => "~/" ++ x
      end
  end.
Proof.
  unfold expandPath, filepath_Abs.
  change (HasPrefix ("~/" ++ x) "~/") with true.
  change (filepath.IsAbs ("~/" ++ x)) with false.
  change (drop 2 ("~/" ++ x)) with x. cbv iota. cbn [negb].
  unfold os_UserHomeDir.
  destruct (String.eqb_spec (os_Getenv h "HOME") "") as [E|N]; cbn [negb].
  - destruct (os_Getwd h); reflexivity.
  - unfold filepath.Join. destruct (String.eqb_spec (os_Getenv h "HOME") ""); [contradiction|].
    reflexivity.
Qed.

End ResolutionClaims.

(** * The claims on the launch specification *)

Section LaunchClaims.
Import strings strings_facts filepath filepath_facts.

Lemma Clean_nonempty (p : string) : Clean p <> "".
Proof.
  unfold Clean. destruct (String.eqb p ""); [discriminate|].
  destruct (IsAbs p); [discriminate|].
  destruct (String.eqb_spec (strings.Join
             (List.rev (fold_left (clean_step false) (elements p) [])) "/") "");
    [discriminate|assumption].
Qed.

Lemma FindRoot_other_nonempty (h : Host) (pwd : string) (root : GitRoot) :
  FindRoot h pwd = Ok root -> root <> pwd -> root <> "".
Proof.
  intros F N. destruct (FindRoot_Ok_inv h pwd root F) as (n & -> & _).
  destruct n as [|n]; [contradiction|].
  rewrite ancestor_S. apply Clean_nonempty.
Qed.

Lemma launch_specs_app (l1 l2 : list EngineCall) :
  launch_specs (l1 ++ l2)%list = (launch_specs l1 ++ launch_specs l2)%list.
Proof.
  induction l1 as [|c l1 IH]; [reflexivity|].
  destruct c; simpl; rewrite IH; reflexivity.
Qed.

(** Every launch specification [Run] hands to the engine is built from the
    working directory and the mounts of [Run_mounts]. *)
Lemma Run_launch_spec (h : Host) (cfg : Config) (cc : ContainerConfig) (hc : HostConfig) :
  In (cc, hc) (launch_specs (fst (Run h cfg))) ->
  exists pwd mounts gitRoot,
    os_Getwd h = Ok pwd /\
    Run_mounts h cfg pwd = Ret (mounts, gitRoot) /\
    cc = Run_containerConfig cfg pwd /\
    hc = Run_hostConfig cfg mounts.
Proof.
  unfold Run. destruct (docker_NewClient h); [intros []|].
  destruct (Run_body h cfg) as [calls r] eqn:B.
  cbn [fst launch_specs]. rewrite launch_specs_app, app_nil_r.
  revert B. unfold Run_body.
  destruct (os_Getwd h) as [pwd|]; [|intros [= <- _] []].
  destruct (Run_mounts h cfg pwd) as [[mounts gitRoot]| |] eqn:M;
    [|intros [= <- _] []|intros [= <- _] []].
  intros B I. exists pwd, mounts, gitRoot.
  assert (E : (cc, hc) = (Run_containerConfig cfg pwd, Run_hostConfig cfg mounts)).
  { destruct (docker_ContainerCreate h _ _);
      [destruct (docker_ContainerStart h _); [|destruct (docker_ContainerWait h _)]|];
      injection B as <- _; simpl in I; destruct I as [I|[]]; congruence. }
  injection E as -> ->. auto.
Qed.

Lemma app_Action_calls (h : Host) (cfg : Config) :
  fst (app_Action h cfg) = fst (Run h cfg).
Proof. unfold app_Action. destruct (Run h cfg). reflexivity. Qed.

Lemma Run_mounts_shape (h : Host) (cfg : Config) (pwd : string)
    (mounts : list Mount) (gitRoot : GitRoot) :
  Run_mounts h cfg pwd = Ret (mounts, gitRoot) -> mounts_shape h pwd mounts.
Proof.
  unfold Run_mounts. destruct (cfg_NoGit cfg); cbn [negb].
  { intros [= <- _]. constructor. }
  destruct (FindRoot h pwd) as [root|] eqn:F; [|intros [= <- _]; constructor].
  destruct (String.eqb_spec root ""); cbn [negb andb]; [intros [= <- _]; constructor|].
  destruct (String.eqb_spec root pwd); cbn [negb]; [intros [= <- _]; constructor|].
  cbn [app].
  destruct (FindRealGitDir h root) as [gitdir| |] eqn:G;
    [|intros [= <- _]; constructor; assumption|discriminate].
  destruct (String.eqb_spec gitdir ""); cbn [negb];
    [intros [= <- _]; constructor; assumption|].
  destruct (String.eqb_spec gitdir (filepath.Join [root; ".git"])); cbn [negb];
    intros [= <- _]; econstructor; eassumption.
Qed.

(** C10. In every launch specification handed to the engine the mount of
    the working directory on itself comes first; the mount of the
    repository root on itself, when there is one, second; the binding of
    the metadata directory, when there is one, last. *)
Theorem bindings_in_fixed_order (h : Host) (cfg : Config)
    (cc : ContainerConfig) (hc : HostConfig) :
  In (cc, hc) (launch_specs (fst (Run h cfg))) ->
  exists pwd,
    os_Getwd h = Ok pwd /\
    (hc_Mounts hc = [bind_mount pwd pwd] \/
     (exists root,
         FindRoot h pwd = Ok root /\
         hc_Mounts hc = [bind_mount pwd pwd; bind_mount root root]) \/
     (exists root gitdir,
         FindRoot h pwd = Ok root /\ FindRealGitDir h root = Ret gitdir /\
         hc_Mounts hc =
         [bind_mount pwd pwd; bind_mount root root;
          bind_mount gitdir (filepath.Join [root; ".git"])])).
Proof.
  intros I. destruct (Run_launch_spec h cfg cc hc I) as (pwd & mounts & g & W & M & _ & ->).
  exists pwd. split; [exact W|]. cbn [hc_Mounts Run_hostConfig].
  destruct (Run_mounts_shape h cfg pwd mounts g M); eauto 8.
Qed.

Lemma bindings_in_fixed_order_witness :
  exists pwd,
    os_Getwd (worktree_host "/w/sub") = Ok pwd /\
    ([bind_mount "/w/sub" "/w/sub"; bind_mount "/w" "/w"; bind_mount "/store" "/w/.git"] =
     [bind_mount pwd pwd] \/
     (exists root,
         FindRoot (worktree_host "/w/sub") pwd = Ok root /\
         [bind_mount "/w/sub" "/w/sub"; bind_mount "/w" "/w"; bind_mount "/store" "/w/.git"] =
         [bind_mount pwd pwd; bind_mount root root]) \/
     (exists root gitdir,
         FindRoot (worktree_host "/w/sub") pwd = Ok root /\
         FindRealGitDir (worktree_host "/w/sub") root = Ret gitdir /\
         [bind_mount "/w/sub" "/w/sub"; bind_mount "/w" "/w"; bind_mount "/store" "/w/.git"] =
         [bind_mount pwd pwd; bind_mount root root;
          bind_mount gitdir (filepath.Join [root; ".git"])])).
Proof.
  apply (bindings_in_fixed_order (worktree_host "/w/sub") (flags (command_line "alpine" [] []))
           (Run_containerConfig (flags (command_line "alpine" [] [])) "/w/sub")
           (Run_hostConfig (flags (command_line "alpine" [] []))
              [bind_mount "/w/sub" "/w/sub"; bind_mount "/w" "/w";
               bind_mount "/store" "/w/.git"])).
  vm_compute. auto.
Defined.





(** The command [ParseFile] collects is what the [command] nodes of the
    document list, in document order. *)
Lemma apply_nodes_Command (nodes : list Node) (config : Config) :
  cfg_Command (fold_left apply_node nodes config) =
  (cfg_Command config ++
   flat_map (fun node => if key_is node "command" then extractList (NodeValue node) else [])
     nodes)%list.
Proof.
  revert config. induction nodes as [|node nodes IH]; intros config.
  - simpl. rewrite app_nil_r. reflexivity.
  - cbn [fold_left flat_map]. rewrite IH, app_assoc. f_equal.
    unfold apply_node, key_is.
    destruct (String.eqb_spec (Key node) "image") as [E|_].
    { rewrite E. cbn. rewrite app_nil_r. destruct (NodeValue node); reflexivity. }
    destruct (String.eqb (Key node) "command"); [reflexivity|].
    rewrite app_nil_r.
    repeat match goal with
           | |- context [if ?b then _ else _] => destruct b
           | |- context [match NodeValue node with _ => _ end] => destruct (NodeValue node)
           end; reflexivity.
Qed.



Lemma ParseFile_Image (h : Host) (path : string) (scfg : Config) :
  ParseFile h path = Ret scfg -> cfg_Image scfg <> "".
Proof.
  unfold ParseFile, defer_Close.
  destruct (os_Open h path) as [file|]; [|discriminate].
  destruct (file_Close h file); [discriminate|].
  destruct (io_ReadAll h file) as [content|]; [|discriminate].
  destruct (up_ParseDocument h _) as [doc|]; [|discriminate].
  destruct (String.eqb_spec (cfg_Image (fold_left apply_node (Nodes doc) empty_Config)) "");
    [discriminate|].
  intros [= <-]. assumption.
Qed.

Lemma action_cli_cases (h : Host) (cl : CommandLine) :
  action_cli h cl = ([], Fail errImageRequired) \/
  exists cfg, cfg_Image cfg <> "" /\ action_cli h cl = app_Action h cfg.
Proof.
  unfold action_cli.
  destruct (String.eqb_spec
              (cfg_Image (set_Command (flags cl) (cfg_Command (flags cl) ++ Args cl)%list)) "");
    [left; reflexivity|right; eauto].
Qed.

Lemma action_cases (h : Host) (cl : CommandLine) :
  fst (action h cl) = [] \/
  exists cfg, cfg_Image cfg <> "" /\ action h cl = app_Action h cfg.
Proof.
  assert (C : fst (action_cli h cl) = [] \/
              exists cfg, cfg_Image cfg <> "" /\ action_cli h cl = app_Action h cfg).
  { destruct (action_cli_cases h cl) as [->|?]; auto. }
  unfold action. destruct (Args cl) as [|firstArg scriptArgs]; [exact C|].
  destruct (os_Stat h firstArg) as [info|]; [|exact C].
  destruct (IsDir info); cbn [negb]; [exact C|].
  destruct (ParseFile h firstArg) as [scfg| |] eqn:P; [|exact C|left; reflexivity].
  right. eexists. split; [|reflexivity].
  cbn [cfg_Image set_ScriptArgs set_ScriptPath]. exact (ParseFile_Image h firstArg scfg P).
Qed.

(** C8. A configuration with an empty image never reaches the engine: in
    normal mode [action] refuses it with the exit error before any engine
    call; [ParseFile] returns no configuration with an empty image; so
    whenever [action] calls the engine at all it runs a configuration
    whose image is not empty, and every launch specification carries a
    non-empty image. *)
Theorem empty_image_fails_validation (h : Host) (cl : CommandLine) :
  (flag_image cl = "" -> action_cli h cl = ([], Fail errImageRequired)) /\
  (forall path scfg, ParseFile h path = Ret scfg -> cfg_Image scfg <> "") /\
  (fst (action h cl) <> [] ->
   exists cfg, cfg_Image cfg <> "" /\ action h cl = app_Action h cfg) /\
  (forall cc hc, In (cc, hc) (launch_specs (fst (action h cl))) -> cc_Image cc <> "").
Proof.
  split; [|split; [|split]].
  - intros E. unfold action_cli. cbn [cfg_Image set_Command flags]. rewrite E. reflexivity.
  - apply ParseFile_Image.
  - intros N. destruct (action_cases h cl) as [E|?]; [contradiction|assumption].
  - intros cc hc I. destruct (action_cases h cl) as [E|(cfg & Im & E)].
    + rewrite E in I. destruct I.
    + rewrite E, app_Action_calls in I.
      destruct (Run_launch_spec _ _ _ _ I) as (pwd & mounts & g & _ & _ & -> & _).
      exact Im.
Qed.

Lemma empty_image_fails_validation_witness :
  action_cli (plain_host "/home/u/proj") (command_line "" ["/data:/mnt"] ["ls"]) =
  ([], Fail errImageRequired).
Proof.
  apply (proj1 (empty_image_fails_validation (plain_host "/home/u/proj")
                  (command_line "" ["/data:/mnt"] ["ls"]))).
  reflexivity.
Defined.

(** [Run] never reads the volume expressions of its configuration. *)
Lemma Run_ignores_Volumes (h : Host) (cfg : Config) (volumes : list Volume) :
  Run h (set_Volumes cfg volumes) = Run h cfg.
Proof. reflexivity. Qed.

(** The volume flag has no destination in the configuration. *)
Lemma flags_ignore_volume (cl : CommandLine) : cfg_Volumes (flags cl) = [].
Proof. reflexivity. Qed.

(** C1 fails on the code.  The expression [/data:/mnt] given by the volume
    flag resolves to a mount, and the launch specification handed to the
    engine carries the working directory mount only; likewise for the
    expression [/data:/mnt:ro] of a script, which [ParseFile] stores in
    the configuration and [Run] does not read. *)
Theorem volume_expressions_not_mounted :
  ParseVolume (plain_host "/home/u/proj") "/data:/mnt" = Some (bind_mount "/data" "/mnt") /\
  map (fun spec => hc_Mounts (snd spec))
    (launch_specs
       (fst (action (plain_host "/home/u/proj") (command_line "alpine" ["/data:/mnt"] ["ls"])))) =
  [[bind_mount "/home/u/proj" "/home/u/proj"]] /\
  ParseFile script_host "/s/job.up" = Ret script_config /\
  cfg_Volumes script_config = ["/data:/mnt:ro"] /\
  ParseVolume script_host "/data:/mnt:ro" =
  Some {| Type_ := TypeBind; Source := "/data"; Target := "/mnt"; ReadOnly := true |} /\
  map (fun spec => hc_Mounts (snd spec))
    (launch_specs (fst (action script_host (command_line "" [] ["/s/job.up"])))) =
  [[bind_mount "/s" "/s"]].
Proof. repeat split; reflexivity. Qed.

End LaunchClaims.

(** * Further properties of the code *)

(** ** More on the library models *)

Module strings_more.
Import strings strings_facts.

Lemma Split_loop_nonempty (fuel : nat) (s sep : string) : Split_loop fuel s sep <> [].
Proof.
  destruct fuel; simpl; [discriminate|].
  destruct (Cut s sep) as [[a b]|]; discriminate.
Qed.

(** Joining the pieces of a split gives the string back. *)
Lemma Join_Split_loop (sep : string) (fuel : nat) (s : string) :
  strings.Join (Split_loop fuel s sep) sep = s.
Proof.
  revert s. induction fuel as [|fuel IH]; intros s; [reflexivity|].
  cbn [Split_loop]. destruct (Cut s sep) as [[a b]|] eqn:C; [|reflexivity].
  pose proof (Split_loop_nonempty fuel b sep) as N.
  specialize (IH b). destruct (Split_loop fuel b sep) as [|p ps]; [contradiction|].
  change (strings.Join (a :: p :: ps) sep) with (a ++ sep ++ strings.Join (p :: ps) sep).
  rewrite IH. symmetry. exact (Cut_sound _ _ _ _ C).
Qed.

Lemma Join_Split (s sep : string) : strings.Join (Split s sep) sep = s.
Proof. apply Join_Split_loop. Qed.

(** The text before the first occurrence holds no occurrence. *)
Lemma Cut_before_free (s sep a b : string) :
  sep <> "" -> Cut s sep = Some (a, b) -> Cut a sep = None.
Proof.
  intros Hsep C. destruct (Cut a sep) as [[u v]|] eqn:Ca; [|reflexivity].
  exfalso. pose proof (Cut_sound _ _ _ _ Ca) as Ea.
  pose proof (Cut_sound _ _ _ _ C) as Es.
  assert (E : s = u ++ sep ++ (v ++ sep ++ b)).
  { rewrite Es, Ea, !append_assoc. reflexivity. }
  destruct (Cut_first _ _ _ _ E) as (a' & b' & C' & L).
  rewrite C in C'. injection C' as <- <-.
  rewrite Ea, !append_length in L.
  assert (0 < String.length sep) by (destruct sep; [congruence|simpl; lia]).
  lia.
Qed.

Lemma Cut_char_none_inv (c : ascii) (s : string) :
  Cut s (String c "") = None -> free_of c s = true.
Proof.
  induction s as [|d s IH]; [reflexivity|].
  rewrite Cut_unfold. cbn [HasPrefix free_of].
  destruct (Ascii.eqb c d) eqn:E; cbn [andb]; [discriminate|].
  rewrite Ascii.eqb_sym, E. cbn [negb andb].
  destruct (Cut s (String c "")) as [[a b]|]; [discriminate|]. intros _. exact (IH eq_refl).
Qed.

Lemma append_inj_l (p a b : string) : p ++ a = p ++ b -> a = b.
Proof. induction p as [|c p IH]; simpl; [auto|]. intros [= E]. exact (IH E). Qed.

End strings_more.

(** ** Repository discovery ([FindRoot]) *)

Section DiscoveryExtras.
Import filepath filepath_facts.

Lemma Clean_IsAbs (p : string) : IsAbs p = true -> IsAbs (Clean p) = true.
Proof.
  intros A. destruct (IsAbs_inv p A) as [u ->]. unfold Clean.
  change (String.eqb (String "/" u) "") with false.
  change (IsAbs (String "/" u)) with true. reflexivity.
Qed.

Lemma Dir_IsAbs (p : string) : IsAbs p = true -> IsAbs (Dir p) = true.
Proof.
  intros A. destruct (IsAbs_inv p A) as [u ->]. unfold Dir.
  apply Clean_IsAbs. cbn [dir_prefix]. destruct (dir_prefix u); reflexivity.
Qed.

Lemma ancestor_IsAbs (n : nat) (p : string) :
  IsAbs p = true -> IsAbs (ancestor n p) = true.
Proof.
  revert p. induction n as [|n IH]; intros p A; [exact A|].
  cbn [ancestor]. apply IH, Dir_IsAbs, A.
Qed.

Lemma Join_IsAbs (a : string) (rest : list string) :
  IsAbs a = true -> IsAbs (filepath.Join (a :: rest)) = true.
Proof.
  intros A. destruct (IsAbs_inv a A) as [u ->]. unfold filepath.Join.
  change (String.eqb (String "/" u) "") with false. cbv iota.
  apply Clean_IsAbs. destruct rest; reflexivity.
Qed.

Lemma FindRoot_loop_nearest (h : Host) (fuel : nat) (dir : string) (root : GitRoot) :
  FindRoot_loop h fuel dir = Some (Ok root) ->
  exists n, root = ancestor n dir /\ marker_at h n dir = true /\
            forall k, k < n -> marker_at h k dir = false.
Proof.
  revert dir. induction fuel as [|fuel IH]; intros dir L; [discriminate|].
  rewrite FindRoot_loop_S in L.
  destruct (os_Stat h (filepath.Join [dir; ".git"])) eqn:S0.
  - injection L as <-. exists 0. split; [reflexivity|]. split.
    + unfold marker_at. cbn [ancestor]. rewrite S0. reflexivity.
    + intros k Hk. lia.
  - destruct (String.eqb (Dir dir) dir); [discriminate|].
    destruct (IH _ L) as (n & -> & M & Below). exists (S n).
    split; [reflexivity|]. split; [exact M|].
    intros [|k] Hk.
    + unfold marker_at. cbn [ancestor]. rewrite S0. reflexivity.
    + apply (Below k). lia.
Qed.

Lemma FindRoot_loop_no_marker (h : Host) (fuel : nat) (dir : string) (err : error) :
  FindRoot_loop h fuel dir = Some (Err err) ->
  forall k, marker_at h k dir = false.
Proof.
  revert dir. induction fuel as [|fuel IH]; intros dir L; [discriminate|].
  rewrite FindRoot_loop_S in L.
  destruct (os_Stat h (filepath.Join [dir; ".git"])) eqn:S0; [discriminate|].
  destruct (String.eqb_spec (Dir dir) dir) as [E|N].
  - intros k. unfold marker_at. rewrite (ancestor_fixed k dir E), S0. reflexivity.
  - intros [|k].
    + unfold marker_at. cbn [ancestor]. rewrite S0. reflexivity.
    + exact (IH _ L k).
Qed.

(** X1. What [FindRoot] returns is an ancestor of the start directory
    whose marker can be probed, and the nearest one: no directory met
    before it on the way up has a marker that can be probed. *)
Theorem FindRoot_result_is_nearest_marker (h : Host) (dir : string) (root : GitRoot) :
  FindRoot h dir = Ok root ->
  exists n, root = ancestor n dir /\
            is_ok (os_Stat h (filepath.Join [root; ".git"])) = true /\
            forall k, k < n -> marker_at h k dir = false.
Proof.
  intros F. pose proof (FindRoot_loop_FindRoot h dir) as L. rewrite F in L.
  destruct (FindRoot_loop_nearest h _ _ _ L) as (n & -> & M & Below).
  exists n. auto.
Qed.

Lemma FindRoot_result_is_nearest_marker_witness :
  exists n, "/home/u/proj" = ancestor n "/home/u/proj/src/a" /\
            is_ok (os_Stat (plain_host "/") (filepath.Join ["/home/u/proj"; ".git"])) = true /\
            forall k, k < n -> marker_at (plain_host "/") k "/home/u/proj/src/a" = false.
Proof.
  exact (FindRoot_result_is_nearest_marker (plain_host "/") "/home/u/proj/src/a"
           "/home/u/proj" eq_refl).
Defined.

(** X2. [FindRoot] fails exactly when no directory from the start
    directory up to the root has a marker that can be probed. *)
Theorem FindRoot_fails_iff_no_marker (h : Host) (dir : string) :
  is_ok (FindRoot h dir) = false <-> forall k, marker_at h k dir = false.
Proof.
  split.
  - intros F. destruct (FindRoot h dir) as [root|err] eqn:E; [discriminate|].
    pose proof (FindRoot_loop_FindRoot h dir) as L. rewrite E in L.
    exact (FindRoot_loop_no_marker h _ _ _ L).
  - intros No. rewrite (FindRoot_no_marker h dir No). reflexivity.
Qed.

Lemma FindRoot_Ok_marker (h : Host) (dir : string) (root : GitRoot) :
  FindRoot h dir = Ok root ->
  is_ok (os_Stat h (filepath.Join [root; ".git"])) = true.
Proof.
  intros F. destruct (FindRoot_Ok_inv h dir root F) as (n & -> & M). exact M.
Qed.

(** X3. Discovery started at the root it found finds the same root. *)
Theorem FindRoot_idempotent (h : Host) (dir : string) (root : GitRoot) :
  FindRoot h dir = Ok root -> FindRoot h root = Ok root.
Proof.
  intros F. pose proof (FindRoot_Ok_marker h dir root F) as M.
  rewrite FindRoot_eq. destruct (os_Stat h _); [reflexivity|discriminate].
Qed.

Lemma FindRoot_idempotent_witness :
  FindRoot (plain_host "/") "/home/u/proj" = Ok "/home/u/proj".
Proof.
  exact (FindRoot_idempotent (plain_host "/") "/home/u/proj/src/a" "/home/u/proj" eq_refl).
Defined.

(** X4. From an absolute start directory [FindRoot] returns an absolute
    root. *)
Theorem FindRoot_absolute (h : Host) (dir : string) (root : GitRoot) :
  IsAbs dir = true -> FindRoot h dir = Ok root -> IsAbs root = true.
Proof.
  intros A F. destruct (FindRoot_Ok_inv h dir root F) as (n & -> & _).
  apply ancestor_IsAbs, A.
Qed.

Lemma FindRoot_absolute_witness : IsAbs "/w" = true.
Proof.
  exact (FindRoot_absolute (worktree_host "/") "/w/sub/deeper" "/w" eq_refl eq_refl).
Defined.

(** X5. The walk ends: on every host and from every start directory the
    loop of [FindRoot] returns within [len(startDir) + 2] turns, and more
    turns do not change what it returns. *)
Theorem FindRoot_loop_terminates (h : Host) (startDir : string) (fuel : nat) :
  String.length startDir + 2 <= fuel ->
  FindRoot_loop h fuel startDir = Some (FindRoot h startDir).
Proof.
  intros L. apply (FindRoot_loop_more h (walk_fuel startDir)).
  - apply FindRoot_loop_FindRoot.
  - unfold walk_fuel. lia.
Qed.

Lemma FindRoot_loop_terminates_witness :
  FindRoot_loop bare_host 100 "/a/b/c" = Some (FindRoot bare_host "/a/b/c").
Proof.
  apply FindRoot_loop_terminates. simpl. lia.
Defined.

End DiscoveryExtras.

(** ** The metadata directory ([FindRealGitDir]) *)

Section MetadataExtras.
Import strings strings_facts strings_more.

Lemma scan_gitdir_line_any (gitPath path : string) (rest : list string) :
  scan_gitdir gitPath (("gitdir: " ++ path) :: rest) =
  match Cut (TrimSpace path) "/worktrees/" with
  | Some (pre, _) => pre
  | None => TrimSpace path
  end.
Proof.
  cbn [scan_gitdir].
  change (HasPrefix ("gitdir: " ++ path) "gitdir: ") with true. cbv iota.
  change (TrimSpace (TrimPrefix ("gitdir: " ++ path) "gitdir:")) with (TrimSpace path).
  unfold Contains. rewrite Split_eq by discriminate.
  destruct (Cut (TrimSpace path) "/worktrees/") as [[pre post]|]; reflexivity.
Qed.

Lemma FindRealGitDir_file (h : Host) (gitRoot : GitRoot) (info : FileInfo)
    (file : File) (content : string) :
  os_Stat h (filepath.Join [gitRoot; ".git"]) = Ok info ->
  IsDir info = false ->
  os_Open h (filepath.Join [gitRoot; ".git"]) = Ok file ->
  io_ReadAll h file = Ok content ->
  file_Close h file = None ->
  FindRealGitDir h gitRoot =
  Ret (scan_gitdir (filepath.Join [gitRoot; ".git"]) (Split content newline)).
Proof.
  intros St NotDir Op Rd Cl. unfold FindRealGitDir, defer_Close.
  rewrite St, NotDir, Op, Cl, Rd. reflexivity.
Qed.

(** X6. A marker file without a line that starts with [gitdir: ] (a
    [gitdir:] without the space does not count) makes the marker path
    itself the metadata directory. *)
Theorem FindRealGitDir_without_gitdir_line (h : Host) (gitRoot : GitRoot)
    (info : FileInfo) (file : File) (content : string) :
  os_Stat h (filepath.Join [gitRoot; ".git"]) = Ok info ->
  IsDir info = false ->
  os_Open h (filepath.Join [gitRoot; ".git"]) = Ok file ->
  io_ReadAll h file = Ok content ->
  file_Close h file = None ->
  forallb (fun l => negb (HasPrefix l "gitdir: ")) (Split content newline) = true ->
  FindRealGitDir h gitRoot = Ret (filepath.Join [gitRoot; ".git"]).
Proof.
  intros St NotDir Op Rd Cl No.
  rewrite (FindRealGitDir_file h gitRoot info file content St NotDir Op Rd Cl).
  rewrite <- (app_nil_r (Split content newline)).
  rewrite scan_gitdir_skip by exact No. reflexivity.
Qed.

Lemma FindRealGitDir_without_gitdir_line_witness :
  FindRealGitDir (table_host marker_without_gitdir (Ok "/w") "" no_document) "/w" =
  Ret "/w/.git" /\
  FindRealGitDir
    (table_host [("/w/.git", Regular "gitdir:/store")] (Ok "/w") "" no_document) "/w" =
  Ret "/w/.git".
Proof.
  split.
  - exact (FindRealGitDir_without_gitdir_line
             (table_host marker_without_gitdir (Ok "/w") "" no_document) "/w"
             {| IsDir := false |} 0 ("worktree /w" ++ newline)
             eq_refl eq_refl eq_refl eq_refl eq_refl eq_refl).
  - exact (FindRealGitDir_without_gitdir_line
             (table_host [("/w/.git", Regular "gitdir:/store")] (Ok "/w") "" no_document)
             "/w" {| IsDir := false |} 0 "gitdir:/store"
             eq_refl eq_refl eq_refl eq_refl eq_refl eq_refl).
Defined.

Lemma gitdir_value (w : string) :
  (if Contains w "/worktrees/" then
     match Split w "/worktrees/" with
     | part0 :: _ => part0
     | [] => w
     end
   else w) =
  match Cut w "/worktrees/" with
  | Some (pre, _) => pre
  | None => w
  end.
Proof.
  unfold Contains. rewrite Split_eq by discriminate.
  destruct (Cut w "/worktrees/") as [[pre post]|]; reflexivity.
Qed.

Lemma scan_gitdir_free (gitPath : string) (lines : list string) :
  scan_gitdir gitPath lines = gitPath \/
  Contains (scan_gitdir gitPath lines) "/worktrees/" = false.
Proof.
  induction lines as [|line rest IH]; [left; reflexivity|].
  cbn [scan_gitdir]. destruct (HasPrefix line "gitdir: "); [right|exact IH].
  rewrite gitdir_value.
  destruct (Cut (TrimSpace (TrimPrefix line "gitdir:")) "/worktrees/")
    as [[pre post]|] eqn:C.
  - unfold Contains.
    rewrite (Cut_before_free _ "/worktrees/" pre post ltac:(discriminate) C).
    reflexivity.
  - unfold Contains. rewrite C. reflexivity.
Qed.

(** X7. Whatever the marker file holds, the metadata directory
    [FindRealGitDir] returns is the marker path itself or a path without
    any [/worktrees/] segment. *)
Theorem FindRealGitDir_never_inside_worktrees (h : Host) (gitRoot : GitRoot) (gitdir : GitDir) :
  FindRealGitDir h gitRoot = Ret gitdir ->
  gitdir = filepath.Join [gitRoot; ".git"] \/ Contains gitdir "/worktrees/" = false.
Proof.
  unfold FindRealGitDir, defer_Close.
  destruct (os_Stat h _) as [info|]; [|discriminate].
  destruct (IsDir info); [intros [= <-]; left; reflexivity|].
  destruct (os_Open h _) as [file|]; [|discriminate].
  destruct (file_Close h file); [discriminate|].
  destruct (io_ReadAll h file) as [content|]; [|discriminate].
  intros [= <-]. apply scan_gitdir_free.
Qed.

Lemma FindRealGitDir_never_inside_worktrees_witness :
  "/store" = filepath.Join ["/w"; ".git"] \/ Contains "/store" "/worktrees/" = false.
Proof.
  exact (FindRealGitDir_never_inside_worktrees (worktree_host "/w") "/w" "/store" eq_refl).
Defined.

(** X8. The first line that starts with [gitdir: ] decides: the lines
    before it that do not start so and every line after it are ignored,
    and the white space around its path (the carriage return of a DOS
    line end, too) is dropped before the path is examined for
    [/worktrees/]. *)
Theorem FindRealGitDir_first_gitdir_line_trimmed (h : Host) (gitRoot : GitRoot)
    (info : FileInfo) (file : File) (content path : string)
    (before rest : list string) :
  os_Stat h (filepath.Join [gitRoot; ".git"]) = Ok info ->
  IsDir info = false ->
  os_Open h (filepath.Join [gitRoot; ".git"]) = Ok file ->
  io_ReadAll h file = Ok content ->
  file_Close h file = None ->
  Split content newline = (before ++ ("gitdir: " ++ path)%string :: rest)%list ->
  forallb (fun l => negb (HasPrefix l "gitdir: ")) before = true ->
  (forall pre post,
      first_occurrence (TrimSpace path) "/worktrees/" pre post ->
      FindRealGitDir h gitRoot = Ret pre) /\
  ((forall u v, TrimSpace path <> u ++ "/worktrees/" ++ v) ->
   FindRealGitDir h gitRoot = Ret (TrimSpace path)).
Proof.
  intros St NotDir Op Rd Cl Lines Before.
  rewrite (FindRealGitDir_file h gitRoot info file content St NotDir Op Rd Cl).
  rewrite Lines, scan_gitdir_skip by exact Before.
  rewrite scan_gitdir_line_any. split.
  - intros pre post F. rewrite (Cut_first_occurrence _ _ _ _ F). reflexivity.
  - intros No.
    destruct (Cut (TrimSpace path) "/worktrees/") as [[pre post]|] eqn:C; [|reflexivity].
    exfalso. exact (No _ _ (Cut_sound _ _ _ _ C)).
Qed.

Lemma FindRealGitDir_first_gitdir_line_trimmed_witness :
  FindRealGitDir (table_host worktree_crlf (Ok "/w") "" no_document) "/w" = Ret "/store".
Proof.
  apply (proj1 (FindRealGitDir_first_gitdir_line_trimmed
                  (table_host worktree_crlf (Ok "/w") "" no_document) "/w"
                  {| IsDir := false |} 0
                  ("# worktree" ++ carriage_return ++ newline
                   ++ "gitdir:   /store/worktrees/x" ++ carriage_return ++ newline
                   ++ "gitdir: /other" ++ newline)
                  ("  /store/worktrees/x" ++ carriage_return)
                  ["# worktree" ++ carriage_return] ["gitdir: /other"; ""]
                  eq_refl eq_refl eq_refl eq_refl eq_refl eq_refl eq_refl)
               "/store" "x").
  apply first_occurrence_Cut. reflexivity.
Defined.

End MetadataExtras.

(** ** Volume expressions ([ParseVolume], [expandPath]) *)

Section VolumeExtras.
Import strings strings_facts strings_more.

Lemma Split_char_free (c : ascii) (n : nat) (s : string) :
  String.length s <= n ->
  Forall (fun p => free_of c p = true) (Split s (String c "")).
Proof.
  revert s. induction n as [|n IH]; intros s L; rewrite Split_eq by discriminate.
  - destruct s; [|simpl in L; lia]. repeat constructor.
  - destruct (Cut s (String c "")) as [[a b]|] eqn:C.
    + constructor.
      * apply Cut_char_none_inv.
        exact (Cut_before_free s (String c "") a b ltac:(discriminate) C).
      * apply IH. pose proof (Cut_length _ _ _ _ C) as E. simpl in E. lia.
    + repeat constructor. exact (Cut_char_none_inv c s C).
Qed.

(** X9. An expression without a colon (the empty one included) gives no
    mount, and the file system is not even probed: the answer is the same
    on every host. *)
Theorem ParseVolume_without_colon (h : Host) (vol : Volume) :
  free_of ":" vol = true -> ParseVolume h vol = None.
Proof.
  intros F. unfold ParseVolume.
  rewrite Split_eq by discriminate. rewrite (Cut_char_none ":" vol F). reflexivity.
Qed.

Lemma ParseVolume_without_colon_witness :
  ParseVolume (plain_host "/") "/data" = None /\ ParseVolume (plain_host "/") "" = None.
Proof.
  split; apply ParseVolume_without_colon; reflexivity.
Defined.

(** X10. A mount returned by [ParseVolume] is read-only exactly when the
    expression is [src:tgt:ro] with no further colon: a fourth segment, a
    different third segment or another spelling of [ro] give a writable
    mount. *)
Theorem ParseVolume_read_only_iff (h : Host) (vol : Volume) (m : Mount) :
  ParseVolume h vol = Some m ->
  (ReadOnly m = true <->
   exists src,
     free_of ":" src = true /\ free_of ":" (Target m) = true /\
     vol = src ++ ":" ++ Target m ++ ":ro").
Proof.
  unfold ParseVolume. intros P.
  pose proof (Split_char_free ":" _ vol (le_n _)) as Free.
  pose proof (Join_Split vol ":") as J.
  destruct (Split vol ":") as [|src [|tgt rest]] eqn:S; try discriminate.
  destruct (os_Stat h (expandPath h src)); [|discriminate].
  injection P as <-. cbn [ReadOnly Target]. split.
  - intros R. apply andb_prop in R as [Len Ro].
    destruct rest as [|third [|fourth rest]]; try discriminate.
    cbn [nth] in Ro. apply String.eqb_eq in Ro. subst third.
    pose proof (Forall_inv Free) as Fs.
    pose proof (Forall_inv (Forall_inv_tail Free)) as Ft. cbv beta in Fs, Ft.
    exists src. split; [exact Fs|]. split; [exact Ft|]. symmetry. exact J.
  - intros (src' & Fs & Ft & E).
    rewrite E, (Split_volume_ro src' tgt Fs Ft) in S.
    injection S as <- <-. reflexivity.
Qed.

Lemma ParseVolume_read_only_iff_witness :
  (false = true <->
   exists src,
     free_of ":" src = true /\ free_of ":" "/mnt" = true /\
     "/data:/mnt:ro:z" = src ++ ":" ++ "/mnt" ++ ":ro") /\
  (false = true <->
   exists src,
     free_of ":" src = true /\ free_of ":" "/mnt" = true /\
     "/data:/mnt:RO" = src ++ ":" ++ "/mnt" ++ ":ro").
Proof.
  split.
  - exact (ParseVolume_read_only_iff (plain_host "/") "/data:/mnt:ro:z"
             (bind_mount "/data" "/mnt") eq_refl).
  - exact (ParseVolume_read_only_iff (plain_host "/") "/data:/mnt:RO"
             (bind_mount "/data" "/mnt") eq_refl).
Defined.

(** X11. Every mount [ParseVolume] returns is a bind mount whose source is
    the expanded first segment and can be probed on the host, and whose
    target is the second segment as written (it is not checked, and may
    be empty). *)
Theorem ParseVolume_mount_source_exists (h : Host) (vol : Volume) (m : Mount) :
  ParseVolume h vol = Some m ->
  Type_ m = TypeBind /\
  is_ok (os_Stat h (Source m)) = true /\
  exists src rest,
    Split vol ":" = src :: Target m :: rest /\ Source m = expandPath h src.
Proof.
  unfold ParseVolume.
  destruct (Split vol ":") as [|src [|tgt rest]]; try discriminate.
  destruct (os_Stat h (expandPath h src)) eqn:St; [|discriminate].
  intros [= <-]. cbn [Type_ Source Target]. rewrite St.
  split; [reflexivity|]. split; [reflexivity|]. exists src, rest. auto.
Qed.

Lemma ParseVolume_mount_source_exists_witness :
  TypeBind = TypeBind /\
  is_ok (os_Stat (plain_host "/home/u/proj") "/home/u/proj/src") = true /\
  exists src rest,
    Split "src:" ":" = src :: "" :: rest /\
    "/home/u/proj/src" = expandPath (plain_host "/home/u/proj") src.
Proof.
  exact (ParseVolume_mount_source_exists (plain_host "/home/u/proj") "src:"
           (bind_mount "/home/u/proj/src" "") eq_refl).
Defined.

(** X12. On a host whose working directory is known and absolute and
    whose [$HOME] is unset or absolute, [expandPath] returns an absolute
    path for every argument, and expanding its result again changes
    nothing. *)
Theorem expandPath_absolute_and_idempotent (h : Host) (wd path : string) :
  os_Getwd h = Ok wd ->
  filepath.IsAbs wd = true ->
  os_Getenv h "HOME" = "" \/ filepath.IsAbs (os_Getenv h "HOME") = true ->
  filepath.IsAbs (expandPath h path) = true /\
  expandPath h (expandPath h path) = expandPath h path.
Proof.
  intros W A Home.
  assert (Abs : filepath.IsAbs (expandPath h path) = true).
  { unfold expandPath, filepath_Abs, os_UserHomeDir. rewrite W.
    assert (R : filepath.IsAbs
                  (if negb (filepath.IsAbs path)
                   then match (if filepath.IsAbs path
                               then Ok (filepath.Clean path)
                               else Ok (filepath.Join [wd; path])) with
                        | Ok abs => abs
                        | Err _ => path
                        end
                   else path) = true).
    { destruct (filepath.IsAbs path) eqn:P; cbn [negb]; [exact P|].
      apply Join_IsAbs, A. }
    destruct (HasPrefix path "~/"); [|exact R].
    destruct Home as [E|E].
    - rewrite E. cbn [String.eqb negb]. exact R.
    - destruct (String.eqb (os_Getenv h "HOME") ""); cbn [negb]; [exact R|].
      apply Join_IsAbs, E. }
  split; [exact Abs|]. apply expandPath_absolute, Abs.
Qed.

Lemma expandPath_absolute_and_idempotent_witness :
  filepath.IsAbs (expandPath (plain_host "/home/u/proj") "../x") = true /\
  expandPath (plain_host "/home/u/proj") (expandPath (plain_host "/home/u/proj") "../x") =
  expandPath (plain_host "/home/u/proj") "../x".
Proof.
  apply (expandPath_absolute_and_idempotent (plain_host "/home/u/proj") "/home/u/proj" "../x");
    [reflexivity|reflexivity|right; reflexivity].
Defined.

End VolumeExtras.

(** ** Launch scripts ([ParseFile], [extractList], [extractEnvironment]) *)

Section ScriptExtras.
Import strings strings_facts strings_more.

Lemma HasPrefix_append (a x p : string) :
  HasPrefix a p = true -> HasPrefix (a ++ x) p = true.
Proof.
  revert a. induction p as [|c p IH]; intros a H; [reflexivity|].
  destruct a as [|d a]; [discriminate|].
  cbn [HasPrefix append] in *. apply andb_prop in H as [E H].
  rewrite E, (IH a H). reflexivity.
Qed.

(** X13. The shebang step drops exactly the first line, up to and with
    its line end, when the file starts with [#!], and keeps the rest byte
    for byte; a file that is one shebang line becomes empty; any other
    file is left as it is. *)
Theorem skip_shebang_drops_first_line :
  (forall line rest,
      free_of "010" line = true ->
      skip_shebang ("#!" ++ line ++ newline ++ rest) = rest) /\
  (forall line, free_of "010" line = true -> skip_shebang ("#!" ++ line) = "") /\
  (forall content, HasPrefix content "#!" = false -> skip_shebang content = content).
Proof.
  split; [|split].
  - intros line rest F. unfold skip_shebang. rewrite Split_eq by discriminate.
    change ("#!" ++ line ++ newline ++ rest) with (("#!" ++ line) ++ String "010" rest).
    unfold newline at 1. rewrite (Cut_char_here "010" ("#!" ++ line) rest) by exact F.
    change (HasPrefix ("#!" ++ line) "#!") with true. cbv iota.
    apply Join_Split.
  - intros line F. unfold skip_shebang. rewrite Split_eq by discriminate.
    unfold newline at 1. rewrite (Cut_char_none "010" ("#!" ++ line)) by exact F.
    reflexivity.
  - intros content N. unfold skip_shebang.
    destruct (Split content newline) as [|line0 rest] eqn:S; [reflexivity|].
    destruct (HasPrefix line0 "#!") eqn:P; [|reflexivity].
    exfalso. pose proof (Join_Split content newline) as J. rewrite S in J.
    assert (E : exists x, content = line0 ++ x).
    { destruct rest as [|r rest]; [exists ""; rewrite append_nil_r; auto|].
      eexists. symmetry. exact J. }
    destruct E as [x ->]. rewrite (HasPrefix_append line0 x "#!" P) in N. discriminate.
Qed.

Lemma apply_node_untouched (config : Config) (node : Node) :
  cfg_NoGit (apply_node config node) = cfg_NoGit config /\
  cfg_ScriptPath (apply_node config node) = cfg_ScriptPath config /\
  cfg_ScriptArgs (apply_node config node) = cfg_ScriptArgs config /\
  cfg_Output (apply_node config node) = cfg_Output config /\
  cfg_Logging (apply_node config node) = cfg_Logging config.
Proof.
  unfold apply_node.
  repeat match goal with
         | |- context [if ?b then _ else _] => destruct b
         | |- context [match NodeValue node with _ => _ end] => destruct (NodeValue node)
         end; repeat split; reflexivity.
Qed.

Lemma apply_nodes_untouched (nodes : list Node) (config : Config) :
  cfg_NoGit (fold_left apply_node nodes config) = cfg_NoGit config /\
  cfg_ScriptPath (fold_left apply_node nodes config) = cfg_ScriptPath config /\
  cfg_ScriptArgs (fold_left apply_node nodes config) = cfg_ScriptArgs config /\
  cfg_Output (fold_left apply_node nodes config) = cfg_Output config /\
  cfg_Logging (fold_left apply_node nodes config) = cfg_Logging config.
Proof.
  revert config. induction nodes as [|node nodes IH]; intros config; [repeat split|].
  cbn [fold_left].
  destruct (IH (apply_node config node)) as (-> & -> & -> & -> & ->).
  apply apply_node_untouched.
Qed.

(** X14. Whatever the script says, a configuration [ParseFile] returns has
    a non-empty image, keeps repository discovery enabled, and has no
    script path, no script arguments, no output file and no logging
    configuration: a script can set none of these. *)
Theorem ParseFile_config_invariants (h : Host) (path : string) (config : Config) :
  ParseFile h path = Ret config ->
  cfg_Image config <> "" /\
  cfg_NoGit config = false /\
  cfg_ScriptPath config = "" /\
  cfg_ScriptArgs config = [] /\
  cfg_Output config = "" /\
  cfg_Logging config = {| Level := ""; Format := "" |}.
Proof.
  intros P. split; [exact (ParseFile_Image h path config P)|].
  revert P. unfold ParseFile, defer_Close.
  destruct (os_Open h path) as [file|]; [|discriminate].
  destruct (file_Close h file); [discriminate|].
  destruct (io_ReadAll h file) as [content|]; [|discriminate].
  destruct (up_ParseDocument h _) as [doc|]; [|discriminate].
  destruct (String.eqb _ ""); [discriminate|].
  intros [= <-].
  destruct (apply_nodes_untouched (Nodes doc) empty_Config) as (-> & -> & -> & -> & ->).
  repeat split.
Qed.

Lemma ParseFile_config_invariants_witness :
  cfg_Image script_config <> "" /\
  cfg_NoGit script_config = false /\
  cfg_ScriptPath script_config = "" /\
  cfg_ScriptArgs script_config = [] /\
  cfg_Output script_config = "" /\
  cfg_Logging script_config = {| Level := ""; Format := "" |}.
Proof.
  exact (ParseFile_config_invariants script_host "/s/job.up" script_config eq_refl).
Defined.

Lemma apply_node_unknown (config : Config) (node : Node) :
  known_key (Key node) = false -> apply_node config node = config.
Proof.
  unfold known_key. cbn [existsb]. intros U.
  repeat (apply orb_false_elim in U as [?E U]).
  unfold apply_node, key_is.
  repeat match goal with E : String.eqb (Key node) _ = false |- _ => rewrite E; clear E end.
  reflexivity.
Qed.

(** X15. Nodes whose key has no case in the [switch] of [ParseFile] have
    no effect: removing them from the document gives the same
    configuration. *)
Theorem apply_node_ignores_unknown_keys (nodes : list Node) (config : Config) :
  fold_left apply_node nodes config =
  fold_left apply_node (filter (fun node => known_key (Key node)) nodes) config.
Proof.
  revert config. induction nodes as [|node nodes IH]; intros config; [reflexivity|].
  cbn [fold_left filter]. destruct (known_key (Key node)) eqn:K.
  - cbn [fold_left]. apply IH.
  - rewrite (apply_node_unknown config node K). apply IH.
Qed.

Lemma ParseFile_document (h : Host) (path : string) (file : File)
    (content : string) (doc : Document) :
  os_Open h path = Ok file ->
  io_ReadAll h file = Ok content ->
  file_Close h file = None ->
  up_ParseDocument h (skip_shebang content) = Ok doc ->
  ParseFile h path =
  if String.eqb (cfg_Image (fold_left apply_node (Nodes doc) empty_Config)) ""
  then Fail (errorString "script must specify image")
  else Ret (fold_left apply_node (Nodes doc) empty_Config).
Proof.
  intros Op Rd Cl Pd. unfold ParseFile, defer_Close. rewrite Op, Cl, Rd, Pd. reflexivity.
Qed.

Lemma apply_node_other_Image (config : Config) (node : Node) :
  key_is node "image" = false -> cfg_Image (apply_node config node) = cfg_Image config.
Proof.
  intros K. unfold apply_node. rewrite K.
  repeat match goal with
         | |- context [if ?b then _ else _] => destruct b
         | |- context [match NodeValue node with _ => _ end] => destruct (NodeValue node)
         end; reflexivity.
Qed.

Lemma apply_nodes_other_Image (nodes : list Node) (config : Config) :
  forallb (fun node => negb (key_is node "image")) nodes = true ->
  cfg_Image (fold_left apply_node nodes config) = cfg_Image config.
Proof.
  revert config. induction nodes as [|node nodes IH]; intros config F; [reflexivity|].
  cbn [forallb] in F. apply andb_prop in F as [K F]. apply negb_true_iff in K.
  cbn [fold_left]. rewrite (IH _ F). apply apply_node_other_Image, K.
Qed.

(** X16. The last [image] node of a script decides the image, whatever
    came before it; and a script the UP parser accepts but that has no
    [image] node at all is refused with "script must specify image". *)
Theorem ParseFile_last_image_wins (h : Host) (path : string) (file : File)
    (content : string) (doc : Document) :
  os_Open h path = Ok file ->
  io_ReadAll h file = Ok content ->
  file_Close h file = None ->
  up_ParseDocument h (skip_shebang content) = Ok doc ->
  (forall before image after,
      Nodes doc = (before ++ {| Key := "image"; NodeValue := VScalar image |} :: after)%list ->
      forallb (fun node => negb (key_is node "image")) after = true ->
      image <> "" ->
      exists config, ParseFile h path = Ret config /\ cfg_Image config = image) /\
  (forallb (fun node => negb (key_is node "image")) (Nodes doc) = true ->
   ParseFile h path = Fail (errorString "script must specify image")).
Proof.
  intros Op Rd Cl Pd. rewrite (ParseFile_document h path file content doc Op Rd Cl Pd).
  split.
  - intros before image after N After Ne.
    assert (I : cfg_Image (fold_left apply_node (Nodes doc) empty_Config) = image).
    { rewrite N, fold_left_app. cbn [fold_left].
      rewrite (apply_nodes_other_Image after _ After). reflexivity. }
    rewrite I. destruct (String.eqb_spec image ""); [contradiction|]. eauto.
  - intros No. rewrite (apply_nodes_other_Image (Nodes doc) empty_Config No). reflexivity.
Qed.

Lemma ParseFile_last_image_wins_witness :
  (forall before image after,
      Nodes script_document =
      (before ++ {| Key := "image"; NodeValue := VScalar image |} :: after)%list ->
      forallb (fun node => negb (key_is node "image")) after = true ->
      image <> "" ->
      exists config, ParseFile script_host "/s/job.up" = Ret config /\ cfg_Image config = image) /\
  (forallb (fun node => negb (key_is node "image")) (Nodes script_document) = true ->
   ParseFile script_host "/s/job.up" = Fail (errorString "script must specify image")).
Proof.
  exact (ParseFile_last_image_wins script_host "/s/job.up" 0
           ("#!/usr/bin/env vsl" ++ newline ++ "image alpine" ++ newline
            ++ "command [echo, hi]" ++ newline ++ "volumes [/data:/mnt:ro]")
           script_document eq_refl eq_refl eq_refl eq_refl).
Defined.

Ltac split_on_key :=
  match goal with
  | |- context [String.eqb (Key ?n) ?k] =>
      let E := fresh "E" in
      destruct (String.eqb_spec (Key n) k) as [E|E]; [rewrite ?E|]
  end.

Lemma apply_node_lists (config : Config) (node : Node) :
  cfg_Command (apply_node config node) =
    (cfg_Command config ++
     if key_is node "command" then extractList (NodeValue node) else [])%list /\
  cfg_Entrypoint (apply_node config node) =
    (cfg_Entrypoint config ++
     if key_is node "entrypoint" then extractList (NodeValue node) else [])%list /\
  cfg_Environment (apply_node config node) =
    (cfg_Environment config ++
     if key_is node "env" || key_is node "environment"
     then extractEnvironment (NodeValue node) else [])%list /\
  cfg_Volumes (apply_node config node) =
    (cfg_Volumes config ++
     if key_is node "volume" || key_is node "volumes"
     then extractList (NodeValue node) else [])%list.
Proof.
  unfold apply_node, key_is.
  repeat split_on_key; cbn; rewrite ?app_nil_r;
    try (destruct (NodeValue node)); repeat split; reflexivity.
Qed.

Lemma apply_nodes_lists (nodes : list Node) (config : Config) :
  cfg_Command (fold_left apply_node nodes config) =
    (cfg_Command config ++
     flat_map (fun node => if key_is node "command"
                           then extractList (NodeValue node) else []) nodes)%list /\
  cfg_Entrypoint (fold_left apply_node nodes config) =
    (cfg_Entrypoint config ++
     flat_map (fun node => if key_is node "entrypoint"
                           then extractList (NodeValue node) else []) nodes)%list /\
  cfg_Environment (fold_left apply_node nodes config) =
    (cfg_Environment config ++
     flat_map (fun node => if key_is node "env" || key_is node "environment"
                           then extractEnvironment (NodeValue node) else []) nodes)%list /\
  cfg_Volumes (fold_left apply_node nodes config) =
    (cfg_Volumes config ++
     flat_map (fun node => if key_is node "volume" || key_is node "volumes"
                           then extractList (NodeValue node) else []) nodes)%list.
Proof.
  revert config. induction nodes as [|node nodes IH]; intros config.
  - cbn. rewrite !app_nil_r. auto.
  - cbn [fold_left flat_map].
    destruct (IH (apply_node config node)) as (-> & -> & -> & ->).
    destruct (apply_node_lists config node) as (-> & -> & -> & ->).
    rewrite <- !app_assoc. auto.
Qed.

(** X17. The list fields of a script accumulate: the command, the
    entrypoint, the environment and the volumes of the configuration are
    the items of all nodes with the matching key ([env] and [environment],
    [volume] and [volumes] alike), in document order; a node whose value
    is not a list contributes nothing. *)
Theorem ParseFile_lists_accumulate (h : Host) (path : string) (file : File)
    (content : string) (doc : Document) (config : Config) :
  os_Open h path = Ok file ->
  io_ReadAll h file = Ok content ->
  file_Close h file = None ->
  up_ParseDocument h (skip_shebang content) = Ok doc ->
  ParseFile h path = Ret config ->
  cfg_Command config =
    flat_map (fun node => if key_is node "command"
                          then extractList (NodeValue node) else []) (Nodes doc) /\
  cfg_Entrypoint config =
    flat_map (fun node => if key_is node "entrypoint"
                          then extractList (NodeValue node) else []) (Nodes doc) /\
  cfg_Environment config =
    flat_map (fun node => if key_is node "env" || key_is node "environment"
                          then extractEnvironment (NodeValue node) else []) (Nodes doc) /\
  cfg_Volumes config =
    flat_map (fun node => if key_is node "volume" || key_is node "volumes"
                          then extractList (NodeValue node) else []) (Nodes doc).
Proof.
  intros Op Rd Cl Pd. rewrite (ParseFile_document h path file content doc Op Rd Cl Pd).
  destruct (String.eqb _ ""); [discriminate|]. intros [= <-].
  exact (apply_nodes_lists (Nodes doc) empty_Config).
Qed.

Lemma ParseFile_lists_accumulate_witness :
  cfg_Command script_config = ["echo"; "hi"] /\
  cfg_Entrypoint script_config = [] /\
  cfg_Environment script_config = [] /\
  cfg_Volumes script_config = ["/data:/mnt:ro"].
Proof.
  exact (ParseFile_lists_accumulate script_host "/s/job.up" 0
           ("#!/usr/bin/env vsl" ++ newline ++ "image alpine" ++ newline
            ++ "command [echo, hi]" ++ newline ++ "volumes [/data:/mnt:ro]")
           script_document script_config eq_refl eq_refl eq_refl eq_refl eq_refl).
Defined.

(** [extractList] and [extractEnvironment] return the strings of a
    list of scalars as they are, in order; the map form of the
    environment turns every entry with a scalar value into [KEY=VALUE];
    a scalar where a list is expected gives the empty list. *)
Lemma extract_round_trip (items : list string) (entries : list (string * string)) (s : string) :
  extractList (VList (map VScalar items)) = items /\
  extractEnvironment (VList (map VScalar items)) = items /\
  extractEnvironment (VBlock (map (fun kv => (fst kv, VScalar (snd kv))) entries)) =
  map (fun kv => fst kv ++ "=" ++ snd kv) entries /\
  extractList (VScalar s) = [] /\ extractEnvironment (VScalar s) = [].
Proof.
  assert (S : scalars (map VScalar items) = items)
    by (induction items as [|i items IH]; [reflexivity|cbn; rewrite IH; reflexivity]).
  repeat split; try exact S.
  induction entries as [|[k v] entries IH]; [reflexivity|].
  cbn in *. rewrite IH. reflexivity.
Qed.

End ScriptExtras.

(** ** The run ([Run]) *)

Section RunExtras.
Import filepath filepath_facts.

Lemma Join_nonempty (a : string) (rest : list string) :
  a <> "" -> filepath.Join (a :: rest) <> "".
Proof.
  intros N. unfold filepath.Join. destruct (String.eqb_spec a ""); [contradiction|].
  apply Clean_nonempty.
Qed.

(** X18. When the working directory itself carries the marker, be it a
    directory or the file of a worktree, the only mount is the working
    directory on itself and no repository root is reported. *)
Theorem Run_mounts_marker_at_working_directory (h : Host) (cfg : Config) (pwd : string) :
  is_ok (os_Stat h (filepath.Join [pwd; ".git"])) = true ->
  Run_mounts h cfg pwd = Ret ([bind_mount pwd pwd], "").
Proof.
  intros M. unfold Run_mounts. rewrite FindRoot_eq.
  destruct (os_Stat h _); [|discriminate].
  rewrite String.eqb_refl. cbn [negb]. rewrite andb_false_r.
  destruct (cfg_NoGit cfg); reflexivity.
Qed.

Lemma Run_mounts_marker_at_working_directory_witness :
  Run_mounts (plain_host "/home/u/proj") (flags (command_line "alpine" [] []))
    "/home/u/proj" =
  Ret ([bind_mount "/home/u/proj" "/home/u/proj"], "") /\
  Run_mounts (worktree_host "/w") empty_Config "/w" = Ret ([bind_mount "/w" "/w"], "").
Proof.
  split; apply Run_mounts_marker_at_working_directory; reflexivity.
Defined.

Lemma Run_mounts_found (h : Host) (cfg : Config) (pwd : string) (root : GitRoot) :
  cfg_NoGit cfg = false -> FindRoot h pwd = Ok root -> root <> pwd ->
  Run_mounts h cfg pwd =
  match FindRealGitDir h root with
  | Ret realGitDir =>
      if negb (String.eqb realGitDir "")
         && negb (String.eqb realGitDir (filepath.Join [root; ".git"]))
      then Ret ([bind_mount pwd pwd; bind_mount root root;
                 bind_mount realGitDir (filepath.Join [root; ".git"])], root)
      else Ret ([bind_mount pwd pwd; bind_mount root root], root)
  | Fail _ => Ret ([bind_mount pwd pwd; bind_mount root root], root)
  | Panic err => Panic err
  end.
Proof.
  intros G F N. unfold Run_mounts. rewrite G, F. cbn [negb].
  pose proof (FindRoot_other_nonempty h pwd root F N) as Ne.
  destruct (String.eqb_spec root ""); [contradiction|].
  destruct (String.eqb_spec root pwd); [contradiction|].
  cbn [negb andb app].
  destruct (FindRealGitDir h root) as [g| |]; try reflexivity.
  destruct (String.eqb g ""); cbn [negb andb]; [reflexivity|].
  destruct (String.eqb g (filepath.Join [root; ".git"])); reflexivity.
Qed.

(** X19. In an ordinary repository (the marker of the root is a
    directory) entered below its root, the mounts are exactly the working
    directory and the root, each on itself, and the root is reported; no
    file of the repository is opened. *)
Theorem Run_mounts_plain_repository (h : Host) (cfg : Config) (pwd : string)
    (root : GitRoot) (info : FileInfo) :
  cfg_NoGit cfg = false ->
  FindRoot h pwd = Ok root -> root <> pwd ->
  os_Stat h (filepath.Join [root; ".git"]) = Ok info -> IsDir info = true ->
  Run_mounts h cfg pwd = Ret ([bind_mount pwd pwd; bind_mount root root], root).
Proof.
  intros G F N St D. rewrite (Run_mounts_found h cfg pwd root G F N).
  unfold FindRealGitDir. rewrite St, D. rewrite String.eqb_refl.
  cbn [negb]. rewrite andb_false_r. reflexivity.
Qed.

Lemma Run_mounts_plain_repository_witness :
  Run_mounts (with_sys_open (plain_host "/home/u/proj/src") (Err (SyscallError EIO)))
    empty_Config "/home/u/proj/src" =
  Ret ([bind_mount "/home/u/proj/src" "/home/u/proj/src";
        bind_mount "/home/u/proj" "/home/u/proj"], "/home/u/proj").
Proof.
  apply (Run_mounts_plain_repository _ empty_Config "/home/u/proj/src" "/home/u/proj"
           {| IsDir := true |}); try reflexivity. discriminate.
Defined.

(** X20. When the metadata directory cannot be resolved (the marker file
    cannot be opened or read) or resolves to the empty path, the run goes
    on with the working directory and the root mounted and no metadata
    binding: the failure is not reported. *)
Theorem Run_mounts_unresolved_metadata (h : Host) (cfg : Config) (pwd : string)
    (root : GitRoot) :
  cfg_NoGit cfg = false ->
  FindRoot h pwd = Ok root -> root <> pwd ->
  (exists err, FindRealGitDir h root = Fail err) \/ FindRealGitDir h root = Ret "" ->
  Run_mounts h cfg pwd = Ret ([bind_mount pwd pwd; bind_mount root root], root).
Proof.
  intros G F N R. rewrite (Run_mounts_found h cfg pwd root G F N).
  destruct R as [[err ->]| ->]; reflexivity.
Qed.

Lemma Run_mounts_unresolved_metadata_witness :
  Run_mounts (with_sys_open (worktree_host "/w/sub") (Err (SyscallError EACCES)))
    empty_Config "/w/sub" =
  Ret ([bind_mount "/w/sub" "/w/sub"; bind_mount "/w" "/w"], "/w") /\
  Run_mounts (table_host marker_with_empty_gitdir (Ok "/w/sub") "" no_document)
    empty_Config "/w/sub" =
  Ret ([bind_mount "/w/sub" "/w/sub"; bind_mount "/w" "/w"], "/w").
Proof.
  split.
  - apply Run_mounts_unresolved_metadata; try reflexivity; [discriminate|].
    left. eexists. reflexivity.
  - apply Run_mounts_unresolved_metadata; try reflexivity; [discriminate|].
    right. reflexivity.
Defined.

(** X21. The repository root [Run] reports is empty exactly when the
    working directory is the only mount; otherwise it is the root found,
    it differs from the working directory, and its self-mount is the
    second mount. *)
Theorem Run_mounts_reported_root (h : Host) (cfg : Config) (pwd : string)
    (mounts : list Mount) (gitRoot : GitRoot) :
  Run_mounts h cfg pwd = Ret (mounts, gitRoot) ->
  (gitRoot = "" /\ mounts = [bind_mount pwd pwd]) \/
  (gitRoot <> "" /\ gitRoot <> pwd /\ FindRoot h pwd = Ok gitRoot /\
   exists rest, mounts = bind_mount pwd pwd :: bind_mount gitRoot gitRoot :: rest).
Proof.
  unfold Run_mounts. destruct (cfg_NoGit cfg); cbn [negb].
  { intros [= <- <-]. left. auto. }
  destruct (FindRoot h pwd) as [root|] eqn:F; [|intros [= <- <-]; left; auto].
  destruct (String.eqb_spec root ""); cbn [negb andb]; [intros [= <- <-]; left; auto|].
  destruct (String.eqb_spec root pwd); cbn [negb]; [intros [= <- <-]; left; auto|].
  cbn [app]. intros R. right.
  assert (E : gitRoot = root /\
              exists rest, mounts = bind_mount pwd pwd :: bind_mount root root :: rest).
  { destruct (FindRealGitDir h root) as [g| |]; [| |discriminate].
    - destruct (negb (String.eqb g ""));
        [destruct (negb (String.eqb g (filepath.Join [root; ".git"])))|];
        injection R as <- <-; eauto.
    - injection R as <- <-; eauto. }
  destruct E as [-> E]. auto.
Qed.

Lemma Run_mounts_reported_root_witness :
  ("/w" = "" /\
   [bind_mount "/w/sub" "/w/sub"; bind_mount "/w" "/w"; bind_mount "/store" "/w/.git"] =
   [bind_mount "/w/sub" "/w/sub"]) \/
  ("/w" <> "" /\ "/w" <> "/w/sub" /\ FindRoot (worktree_host "/w/sub") "/w/sub" = Ok "/w" /\
   exists rest,
     [bind_mount "/w/sub" "/w/sub"; bind_mount "/w" "/w"; bind_mount "/store" "/w/.git"] =
     bind_mount "/w/sub" "/w/sub" :: bind_mount "/w" "/w" :: rest).
Proof.
  exact (Run_mounts_reported_root (worktree_host "/w/sub") empty_Config "/w/sub" _ "/w" eq_refl).
Defined.

Lemma Run_with_client (h : Host) (cfg : Config) :
  docker_NewClient h = None ->
  Run h cfg =
  ((CallNewClient :: fst (Run_body h cfg) ++ [CallClose])%list,
   match docker_Close h with
   | Some err => Panic err
   | None => snd (Run_body h cfg)
   end).
Proof.
  intros N. unfold Run. rewrite N. destruct (Run_body h cfg). reflexivity.
Qed.

(** The ways the body of [Run] can go. *)
Lemma Run_body_cases (h : Host) (cfg : Config) :
  (fst (Run_body h cfg) = [] /\ forall res, snd (Run_body h cfg) <> Ret res) \/
  exists pwd mounts gitRoot,
    os_Getwd h = Ok pwd /\ Run_mounts h cfg pwd = Ret (mounts, gitRoot) /\
    let cc := Run_containerConfig cfg pwd in
    let hc := Run_hostConfig cfg mounts in
    (exists err,
        docker_ContainerCreate h cc hc = Err err /\
        Run_body h cfg =
        ([CallContainerCreate cc hc], Fail (wrapError "failed to create container" err))) \/
    (exists id,
        docker_ContainerCreate h cc hc = Ok id /\
        ((exists err,
             docker_ContainerStart h id = Some err /\
             Run_body h cfg =
             ([CallContainerCreate cc hc; CallContainerStart id],
              Fail (wrapError "failed to start container" err))) \/
         (docker_ContainerStart h id = None /\
          ((exists err,
               docker_ContainerWait h id = Some err /\
               Run_body h cfg =
               ([CallContainerCreate cc hc; CallContainerStart id; CallContainerWait id],
                Fail (wrapError "error waiting for container" err))) \/
           (docker_ContainerWait h id = None /\
            Run_body h cfg =
            ([CallContainerCreate cc hc; CallContainerStart id; CallContainerWait id],
             Ret {| res_Success := true;
                    res_ContainerID := id;
                    res_Image := cfg_Image cfg;
                    res_WorkingDir := Run_workingDir cfg pwd;
                    res_Mounts := map mountInfo mounts;
                    res_GitRoot := gitRoot;
                    res_ScriptPath := cfg_ScriptPath cfg;
                    res_Message := "Container executed successfully" |})))))).
Proof.
  unfold Run_body.
  destruct (os_Getwd h) as [pwd|] eqn:W; [|left; split; [reflexivity|discriminate]].
  destruct (Run_mounts h cfg pwd) as [[mounts gitRoot]| |] eqn:M;
    [|left; split; [reflexivity|discriminate]..].
  right. exists pwd, mounts, gitRoot. split; [reflexivity|]. split; [exact M|].
  cbv zeta.
  destruct (docker_ContainerCreate h _ _) as [id|err]; [right|left; eauto].
  exists id. split; [reflexivity|].
  destruct (docker_ContainerStart h id) as [err|]; [left; eauto|right].
  split; [reflexivity|].
  destruct (docker_ContainerWait h id) as [err|]; [left; eauto|right; auto].
Qed.

(** X22. A failing [Close] of the marker file panics [FindRealGitDir],
    and the panic ends the run: the engine client is closed and no launch
    specification is ever handed to the engine. *)
Theorem Run_panics_when_marker_close_fails (h : Host) (cfg : Config) (pwd : string)
    (root : GitRoot) (err : error) :
  docker_NewClient h = None ->
  os_Getwd h = Ok pwd ->
  cfg_NoGit cfg = false ->
  FindRoot h pwd = Ok root -> root <> pwd ->
  FindRealGitDir h root = Panic err ->
  fst (Run h cfg) = [CallNewClient; CallClose] /\
  exists err', snd (Run h cfg) = Panic err'.
Proof.
  intros N W G F Ne P. rewrite (Run_with_client h cfg N). cbn [fst snd].
  assert (B : Run_body h cfg = ([], Panic err)).
  { unfold Run_body. rewrite W, (Run_mounts_found h cfg pwd root G F Ne), P. reflexivity. }
  rewrite B. cbn [fst snd app]. split; [reflexivity|].
  destruct (docker_Close h); eauto.
Qed.

Lemma Run_panics_when_marker_close_fails_witness :
  fst (Run (with_file_Close (worktree_host "/w/sub") (Some (SyscallError EIO))) empty_Config) =
  [CallNewClient; CallClose] /\
  exists err',
    snd (Run (with_file_Close (worktree_host "/w/sub") (Some (SyscallError EIO))) empty_Config) =
    Panic err'.
Proof.
  apply (Run_panics_when_marker_close_fails
           (with_file_Close (worktree_host "/w/sub") (Some (SyscallError EIO)))
           empty_Config "/w/sub" "/w" (SyscallError EIO)); try reflexivity.
  discriminate.
Defined.

(** X23. Every mount of a launch specification handed to the engine is a
    writable bind mount, and there are between one and three of them. *)
Theorem launch_mounts_are_writable_binds (h : Host) (cfg : Config)
    (cc : ContainerConfig) (hc : HostConfig) :
  In (cc, hc) (launch_specs (fst (Run h cfg))) ->
  Forall (fun m => Type_ m = TypeBind /\ ReadOnly m = false) (hc_Mounts hc) /\
  1 <= List.length (hc_Mounts hc) <= 3.
Proof.
  intros I. destruct (Run_launch_spec h cfg cc hc I) as (pwd & mounts & g & _ & M & _ & ->).
  cbn [hc_Mounts Run_hostConfig].
  destruct (Run_mounts_shape h cfg pwd mounts g M);
    (split; [repeat constructor|simpl; lia]).
Qed.

Lemma launch_mounts_are_writable_binds_witness :
  Forall (fun m => Type_ m = TypeBind /\ ReadOnly m = false)
    [bind_mount "/w/sub" "/w/sub"; bind_mount "/w" "/w"; bind_mount "/store" "/w/.git"] /\
  1 <= List.length
         [bind_mount "/w/sub" "/w/sub"; bind_mount "/w" "/w"; bind_mount "/store" "/w/.git"]
    <= 3.
Proof.
  apply (launch_mounts_are_writable_binds (worktree_host "/w/sub") empty_Config
           (Run_containerConfig empty_Config "/w/sub")
           (Run_hostConfig empty_Config
              [bind_mount "/w/sub" "/w/sub"; bind_mount "/w" "/w";
               bind_mount "/store" "/w/.git"])).
  vm_compute. auto.
Defined.

(** X24. In every launch specification handed to the engine the working
    directory is the configured one, or the current directory when none
    is configured; the container is removed on exit; standard output and
    error are attached; and the terminal, the open standard input and its
    attachment all follow the interactive flag. *)
Theorem launch_spec_settings (h : Host) (cfg : Config)
    (cc : ContainerConfig) (hc : HostConfig) :
  In (cc, hc) (launch_specs (fst (Run h cfg))) ->
  (exists pwd,
      os_Getwd h = Ok pwd /\
      cc_WorkingDir cc = if String.eqb (cfg_WorkingDir cfg) "" then pwd else cfg_WorkingDir cfg) /\
  hc_AutoRemove hc = true /\
  cc_AttachStdout cc = true /\ cc_AttachStderr cc = true /\
  cc_Tty cc = cfg_Interactive cfg /\
  cc_OpenStdin cc = cfg_Interactive cfg /\
  cc_AttachStdin cc = cfg_Interactive cfg.
Proof.
  intros I. destruct (Run_launch_spec h cfg cc hc I) as (pwd & mounts & g & W & _ & -> & ->).
  split; [exists pwd; split; [exact W|reflexivity]|]. repeat split.
Qed.

Lemma launch_spec_settings_witness :
  (exists pwd,
      os_Getwd (plain_host "/home/u/proj") = Ok pwd /\
      "/home/u/proj" = if String.eqb (cfg_WorkingDir empty_Config) "" then pwd
                       else cfg_WorkingDir empty_Config) /\
  true = true /\ true = true /\ true = true /\
  false = cfg_Interactive empty_Config /\
  false = cfg_Interactive empty_Config /\
  false = cfg_Interactive empty_Config.
Proof.
  apply (launch_spec_settings (plain_host "/home/u/proj") empty_Config
           (Run_containerConfig empty_Config "/home/u/proj")
           (Run_hostConfig empty_Config [bind_mount "/home/u/proj" "/home/u/proj"])).
  vm_compute. auto.
Defined.

(** X25. When [Run] succeeds, the engine saw exactly one client, one
    create, one start, one wait and the close, in this order, and the
    result reports what was launched: the identity the engine assigned,
    the image and working directory of the launch specification, and its
    mounts, one for one. *)
Theorem Run_success_reports_launch (h : Host) (cfg : Config) (res : Result) :
  snd (Run h cfg) = Ret res ->
  exists cc hc,
    fst (Run h cfg) =
    [CallNewClient; CallContainerCreate cc hc; CallContainerStart (res_ContainerID res);
     CallContainerWait (res_ContainerID res); CallClose] /\
    docker_ContainerCreate h cc hc = Ok (res_ContainerID res) /\
    res_Success res = true /\
    res_Image res = cc_Image cc /\
    res_WorkingDir res = cc_WorkingDir cc /\
    res_Mounts res = map mountInfo (hc_Mounts hc) /\
    res_ScriptPath res = cfg_ScriptPath cfg.
Proof.
  destruct (docker_NewClient h) as [e|] eqn:N.
  { unfold Run. rewrite N. discriminate. }
  rewrite (Run_with_client h cfg N). cbn [fst snd].
  destruct (docker_Close h); [discriminate|]. intros R.
  destruct (Run_body_cases h cfg) as [[_ No]|(pwd & mounts & g & _ & _ & C)].
  { exfalso. exact (No res R). }
  cbv zeta in C.
  destruct C as [(err & _ & B)|(id & Cr & [(err & _ & B)|(_ & [(err & _ & B)|(_ & B)])])];
    rewrite B in R; cbn [snd] in R; try discriminate.
  injection R as <-. rewrite B. cbn [fst app].
  eexists _, _. split; [reflexivity|]. repeat split. exact Cr.
Qed.

Lemma Run_success_reports_launch_witness :
  exists cc hc,
    fst (Run (worktree_host "/w/sub") empty_Config) =
    [CallNewClient; CallContainerCreate cc hc; CallContainerStart "c0";
     CallContainerWait "c0"; CallClose] /\
    docker_ContainerCreate (worktree_host "/w/sub") cc hc = Ok "c0" /\
    true = true /\
    "" = cc_Image cc /\
    "/w/sub" = cc_WorkingDir cc /\
    [ {| mi_Source := "/w/sub"; mi_Target := "/w/sub" |};
      {| mi_Source := "/w"; mi_Target := "/w" |};
      {| mi_Source := "/store"; mi_Target := "/w/.git" |} ] = map mountInfo (hc_Mounts hc) /\
    "" = cfg_ScriptPath empty_Config.
Proof.
  exact (Run_success_reports_launch (worktree_host "/w/sub") empty_Config
           {| res_Success := true; res_ContainerID := "c0"; res_Image := "";
              res_WorkingDir := "/w/sub";
              res_Mounts :=
                [ {| mi_Source := "/w/sub"; mi_Target := "/w/sub" |};
                  {| mi_Source := "/w"; mi_Target := "/w" |};
                  {| mi_Source := "/store"; mi_Target := "/w/.git" |} ];
              res_GitRoot := "/w"; res_ScriptPath := "";
              res_Message := "Container executed successfully" |} eq_refl).
Defined.


(** X27. Once the engine client exists, closing it is the last engine call
    on every path, and when that close fails the run panics with its
    error, whatever happened before, a completed container included. *)
Theorem Run_closes_client_last (h : Host) (cfg : Config) :
  docker_NewClient h = None ->
  List.last (fst (Run h cfg)) CallNewClient = CallClose /\
  (forall err, docker_Close h = Some err -> snd (Run h cfg) = Panic err).
Proof.
  intros N. rewrite (Run_with_client h cfg N). cbn [fst snd]. split.
  - change (CallNewClient :: fst (Run_body h cfg) ++ [CallClose])%list
      with ((CallNewClient :: fst (Run_body h cfg)) ++ [CallClose])%list.
    apply last_last.
  - intros err ->. reflexivity.
Qed.

Lemma Run_closes_client_last_witness :
  List.last (fst (Run (with_docker_Close (plain_host "/home/u/proj") (Some (SyscallError EIO)))
                    empty_Config)) CallNewClient = CallClose /\
  (forall err,
      docker_Close (with_docker_Close (plain_host "/home/u/proj") (Some (SyscallError EIO))) =
      Some err ->
      snd (Run (with_docker_Close (plain_host "/home/u/proj") (Some (SyscallError EIO)))
             empty_Config) = Panic err).
Proof.
  apply Run_closes_client_last. reflexivity.
Defined.

End RunExtras.

(** ** The command ([action], [flags]) *)

Section ActionExtras.
Import strings strings_facts strings_more.

(** X28. In normal mode every positional argument becomes a command
    token, in order; the image, the user, the network mode and the
    privileged flag of the launch specification are those of the flags;
    and its environment and entrypoint are empty whatever the [env] and
    [entrypoint] flags hold, for these flags are stored nowhere. *)
Theorem action_cli_launch_spec (h : Host) (cl : CommandLine)
    (cc : ContainerConfig) (hc : HostConfig) :
  In (cc, hc) (launch_specs (fst (action_cli h cl))) ->
  cc_Cmd cc = Args cl /\
  cc_Image cc = flag_image cl /\ flag_image cl <> "" /\
  cc_User cc = flag_user cl /\
  hc_NetworkMode hc = flag_network_mode cl /\
  hc_Privileged hc = flag_privileged cl /\
  cc_Env cc = [] /\ cc_Entrypoint cc = [].
Proof.
  unfold action_cli. cbn [cfg_Image set_Command flags cfg_Command app].
  destruct (String.eqb_spec (flag_image cl) "") as [|Ne]; [intros []|].
  rewrite app_Action_calls. intros I.
  destruct (Run_launch_spec _ _ _ _ I) as (pwd & mounts & g & _ & _ & -> & ->).
  repeat split. exact Ne.
Qed.

Lemma action_cli_launch_spec_witness :
  ["ls"; "-l"] = ["ls"; "-l"] /\
  "alpine" = "alpine" /\ "alpine" <> "" /\
  "" = "" /\ "" = "" /\ false = false /\
  @nil string = [] /\ @nil string = [].
Proof.
  apply (action_cli_launch_spec (plain_host "/home/u/proj")
           {| flag_image := "alpine"; flag_no_git := false; flag_interactive := true;
              flag_working_dir := ""; flag_user := ""; flag_env := ["A=1"];
              flag_volume := []; flag_entrypoint := ["/bin/sh"]; flag_network_mode := "";
              flag_privileged := false; flag_output := ""; Args := ["ls"; "-l"] |}
           (Run_containerConfig
              (set_Command (flags (command_line "alpine" [] [])) ["ls"; "-l"]) "/home/u/proj")
           (Run_hostConfig (flags (command_line "alpine" [] []))
              [bind_mount "/home/u/proj" "/home/u/proj"])).
  vm_compute. auto.
Defined.

(** X29. When the first argument cannot be probed, is a directory, or is
    a file that [ParseFile] does not accept (unreadable, not a UP
    document, no image), [action] carries on in normal mode without a
    word: the file name stays the first command token. *)
Theorem action_falls_back_to_normal_mode (h : Host) (cl : CommandLine)
    (firstArg : string) (rest : list string) :
  Args cl = firstArg :: rest ->
  is_ok (os_Stat h firstArg) = false \/
  (exists info, os_Stat h firstArg = Ok info /\ IsDir info = true) \/
  (exists err, ParseFile h firstArg = Fail err) ->
  action h cl = action_cli h cl /\
  (forall cc hc,
      In (cc, hc) (launch_specs (fst (action h cl))) -> cc_Cmd cc = firstArg :: rest).
Proof.
  intros A C.
  assert (E : action h cl = action_cli h cl).
  { unfold action. rewrite A.
    destruct C as [S|[(info & -> & D)|(err & P)]].
    - destruct (os_Stat h firstArg); [discriminate|reflexivity].
    - rewrite D. reflexivity.
    - destruct (os_Stat h firstArg) as [info|]; [|reflexivity].
      destruct (IsDir info); [reflexivity|]. cbn [negb]. rewrite P. reflexivity. }
  split; [exact E|]. intros cc hc I. rewrite E in I. rewrite <- A.
  unfold action_cli in I. cbn [cfg_Image set_Command flags cfg_Command app] in I.
  destruct (String.eqb (flag_image cl) ""); [destruct I|].
  rewrite app_Action_calls in I.
  destruct (Run_launch_spec _ _ _ _ I) as (pwd & mounts & g & _ & _ & -> & _).
  reflexivity.
Qed.

Lemma action_falls_back_to_normal_mode_witness :
  action (table_host script_files (Ok "/s") "" no_document)
    (command_line "alpine" [] ["/s/job.up"; "a"]) =
  action_cli (table_host script_files (Ok "/s") "" no_document)
    (command_line "alpine" [] ["/s/job.up"; "a"]) /\
  (forall cc hc,
      In (cc, hc)
         (launch_specs
            (fst (action (table_host script_files (Ok "/s") "" no_document)
                    (command_line "alpine" [] ["/s/job.up"; "a"])))) ->
      cc_Cmd cc = ["/s/job.up"; "a"]).
Proof.
  apply (action_falls_back_to_normal_mode (table_host script_files (Ok "/s") "" no_document)
           (command_line "alpine" [] ["/s/job.up"; "a"]) "/s/job.up" ["a"] eq_refl).
  right. right. eexists. reflexivity.
Defined.

Lemma distinct_NoDup (l : list string) : distinct l = true -> NoDup l.
Proof.
  induction l as [|a l IH]; intros D; [constructor|].
  cbn [distinct] in D. apply andb_prop in D as [N D]. constructor; [|exact (IH D)].
  intros I. apply negb_true_iff in N.
  assert (X : existsb (String.eqb a) l = true)
    by (apply existsb_exists; exists a; split; [exact I|apply String.eqb_refl]).
  congruence.
Qed.

Lemma NoDup_map_append (prefix : string) (l : list string) :
  NoDup l -> NoDup (map (String.append prefix) l).
Proof.
  induction 1 as [|a l N _ IH]; cbn [map]; constructor; [|exact IH].
  intros I. apply in_map_iff in I as (b & E & Ib).
  apply append_inj_l in E. subst b. contradiction.
Qed.

(** X30. For every prefix, no two flags of the run command share a name
    or an alias, no two share an environment variable, every environment
    variable starts with the prefix, and the flags stored nowhere are
    exactly [env], [volume] and [entrypoint]. *)
Theorem run_flags_do_not_collide (prefix : string) :
  distinct (flat_map flag_words (run_flags prefix)) = true /\
  NoDup (flat_map fl_EnvVars (run_flags prefix)) /\
  Forall (fun v => HasPrefix v prefix = true) (flat_map fl_EnvVars (run_flags prefix)) /\
  map fl_Name
    (filter (fun f => match fl_Destination f with None => true | Some _ => false end)
       (run_flags prefix)) = ["env"; "volume"; "entrypoint"].
Proof.
  split; [reflexivity|].
  assert (E : flat_map fl_EnvVars (run_flags prefix) =
              map (String.append prefix)
                ["RUN_IMAGE"; "RUN_NO_GIT"; "RUN_INTERACTIVE"; "RUN_WORKING_DIR";
                 "RUN_USER"; "RUN_ENV"; "RUN_VOLUME"; "RUN_ENTRYPOINT";
                 "RUN_NETWORK_MODE"; "RUN_PRIVILEGED"; "OUTPUT"]).
  { cbn. rewrite !append_assoc. reflexivity. }
  split; [|split; [|reflexivity]].
  - rewrite E. apply NoDup_map_append, distinct_NoDup. reflexivity.
  - rewrite E. repeat constructor; apply HasPrefix_app.
Qed.

End ActionExtras.
